(** * Branchlet: the non-interactive [create] command

    A shallow embedding of [runCreate] (src/cli/commands/create.ts), of the
    collaborators it talks to, and of the configuration defaults, together
    with the properties the specification states about them.

    Strings are byte strings ([string] of the standard library).  The only
    character the code inspects is ["/"], which never occurs inside a
    multi-byte UTF-8 sequence, so the byte view agrees with JavaScript's
    UTF-16 view for everything proved here. *)

From stdpp Require Import base option list strings gmap.
From Stdlib Require Import String Ascii List Bool Lia.
Import ListNotations.

Local Open Scope string_scope.
Local Open Scope list_scope.

(** ** Data model *)

(** [Branch] as produced by the Git service's branch listing. *)
Module Branch.
Record t : Type := mk {
  name : string;
  isRemote : bool;
  isCurrent : bool
}.
End Branch.

(** [WorktreeConfig]: the seven configuration fields. *)
Module WorktreeConfig.
Record t : Type := mk {
  worktreeCopyPatterns : list string;
  worktreeCopyIgnores : list string;
  worktreePathTemplate : string;
  postCreateCmd : list string;
  terminalCommand : string;
  deleteBranchWithWorktree : bool;
  showRemoteBranches : bool
}.
End WorktreeConfig.

(** The object literal [runCreate] hands to [worktreeService.createWorktree]. *)
Module CreateRequest.
Record t : Type := mk {
  name : string;
  sourceBranch : string;
  newBranch : string;
  basePath : string;
  isRemoteSource : bool
}.
End CreateRequest.

(** [CliArgs]: [command] is always present, the other fields are
    [string | undefined]; [None] is [undefined]. *)
Module CliArgs.
Record t : Type := mk {
  command : string;
  name : option string;
  source : option string;
  branch : option string
}.
End CliArgs.

Module RepositoryInfo.
Record t : Type := mk { path : string }.
End RepositoryInfo.

(** ** JavaScript operators on [string | undefined] *)

(** Truthiness: [undefined] and the empty string are falsy. *)
Definition truthy (v : option string) : bool :=
  match v with
  | Some (String _ _) => true
  | _ => false
  end.

(** [v ?? d]: only [undefined] falls through to [d]; the empty string does
    not. *)
Definition nullish (v : option string) (d : string) : string :=
  match v with
  | Some s => s
  | None => d
  end.

(** ** [args.source.replace(/^[^/]+\//, "")] *)

Definition slash : ascii := "/"%char.

(** The text after the first ["/"] of [s], if [s] has one. *)
Fixpoint afterFirstSlash (s : string) : option string :=
  match s with
  | EmptyString => None
  | String c rest =>
      if Ascii.eqb c slash then Some rest else afterFirstSlash rest
  end.

(** The pattern is anchored and asks for at least one character other than
    ["/"] and then a ["/"]: it matches exactly when the string does not
    start with ["/"] and has a ["/"] further on, and the match ends at the
    first ["/"].  Without the [g] flag [replace] rewrites that one match. *)
Definition stripRemotePrefix (s : string) : string :=
  match s with
  | EmptyString => s
  | String c rest =>
      if Ascii.eqb c slash then s
      else match afterFirstSlash rest with
           | Some tail => tail
           | None => s
           end
  end.

(** ** Effects: the call log and thrown errors *)

(** What may go on inside [worktreeService.createWorktree]: the Git
    subprocesses it runs, the file copy, the post-create commands, and
    lines written to the error stream. *)
Inductive ServiceEvent : Type :=
  | GitWorktreeAdd (path sourceBranch newBranch : string)
  | GitWorktreeRemove (path : string)
  | CopyFiles (destination : string)
  | RunCommand (command cwd : string)
  | ConsoleError (line : string).

(** What [runCreate] does, in order.  Calls to the validators are logged
    with what they returned, so that "validated before" can be stated;
    [Within] wraps what happens inside the [createWorktree] call. *)
Inductive Event : Type :=
  | CallValidateDirectoryName (name : string) (result : option string)
  | CallGetConfig
  | CallGetRepositoryInfo
  | CallListBranches (includeRemote : bool)
  | CallValidateBranchName (name : string) (result : option string)
  | CallCreateWorktree (req : CreateRequest.t)
  | Within (e : ServiceEvent)
  | ConsoleLog (line : string).

(** A run: the events so far, and either the message of the thrown [Error]
    or the value. *)
Definition Run (E A : Type) : Type := list E * (string + A).

Definition trace {E A} (r : Run E A) : list E := fst r.
Definition outcome {E A} (r : Run E A) : string + A := snd r.

Definition throw {E A} (message : string) : Run E A := ([], inl message).
Definition emit {E} (e : E) : Run E unit := ([e], inr tt).

#[global] Instance Run_ret {E} : MRet (Run E) := fun A a => ([], inr a).
#[global] Instance Run_bind {E} : MBind (Run E) := fun A B f m =>
  match m with
  | (t, inl message) => (t, inl message)
  | (t, inr a) => let '(t', r) := f a in (t ++ t', r)
  end.

(** A call to a collaborator that may reject: log it, then resolve or
    throw. *)
Definition call {E A} (e : E) (result : string + A) : Run E A := ([e], result).

(** A call to [createWorktree]: log the call, then what the service does
    inside it. *)
Definition enter {A} (e : Event) (body : Run ServiceEvent A) : Run Event A :=
  (e :: map Within (fst body), snd body).

(** ** Collaborators *)

(** The part of [WorktreeService] that [runCreate] uses.  [getConfig] is
    [getConfigService().getConfig()], [getRepositoryInfo] and
    [listBranches] are the Git service's. *)
Record WorktreeService : Type := {
  getConfig : WorktreeConfig.t;
  getRepositoryInfo : string + RepositoryInfo.t;
  listBranches : bool -> string + list Branch.t;
  createWorktree : CreateRequest.t -> Run ServiceEvent unit
}.

(** The imports from [utils/path-utils] and [node:path]. *)
Record PathUtils : Type := {
  validateDirectoryName : string -> option string;
  validateBranchName : string -> option string;
  getWorktreePath : string -> string -> string -> string -> string -> string;
  dirname : string -> string
}.

(** ** [runCreate] *)

(** [if (!v) throw new Error(message)]; past it [v] is a non-empty
    string. *)
Definition requireArgument (v : option string) (message : string)
  : Run Event string :=
  match v with
  | Some (String c s) => mret (String c s)
  | _ => throw message
  end.

(** [allBranches.find((b) => b.name === args.source)]: the first match. *)
Definition findBranch (source : string) (allBranches : list Branch.t)
  : option Branch.t :=
  List.find (fun b => String.eqb (Branch.name b) source) allBranches.

Definition sourceMissing (source : string) : string :=
  "Source branch '" +:+ source +:+ "' does not exist".

(** Lines 35-39: the branch the worktree is created on.  [!args.branch]
    holds for [undefined] and for the empty string, [??] falls through on
    [undefined] only. *)
Definition resolveNewBranch (branch : option string) (source : string)
    (sourceIsRemote : bool) : string :=
  let defaultBranch :=
    if negb (truthy branch) && sourceIsRemote
    then stripRemotePrefix source
    else source in
  nullish branch defaultBranch.

Definition runCreate (utils : PathUtils) (args : CliArgs.t)
    (worktreeService : WorktreeService) : Run Event unit :=
  (* lines 11-16 *)
  name ← requireArgument (CliArgs.name args)
           "Missing required argument: --name (-n)";
  source ← requireArgument (CliArgs.source args)
             "Missing required argument: --source (-s)";
  (* lines 18-21 *)
  let dirError := validateDirectoryName utils name in
  emit (CallValidateDirectoryName name dirError);;
  (match dirError with
   | Some (String c e) => throw ("Invalid directory name: " +:+ String c e)
   | _ => mret tt
   end);;
  (* lines 23-25 *)
  emit CallGetConfig;;
  let config := getConfig worktreeService in
  repoInfo ← call CallGetRepositoryInfo (getRepositoryInfo worktreeService);
  (* lines 27-31 *)
  allBranches ←
    call (CallListBranches (WorktreeConfig.showRemoteBranches config))
         (listBranches worktreeService (WorktreeConfig.showRemoteBranches config));
  match findBranch source allBranches with
  | None => throw (sourceMissing source)
  | Some sourceBranchInfo =>
      (* lines 35-39 *)
      let newBranch :=
        resolveNewBranch (CliArgs.branch args) source
                         (Branch.isRemote sourceBranchInfo) in
      (* lines 40-45 *)
      (match CliArgs.branch args with
       | Some (String c b) =>
           let branchError := validateBranchName utils (String c b) in
           emit (CallValidateBranchName (String c b) branchError);;
           match branchError with
           | Some (String c' e) =>
               throw ("Invalid branch name: " +:+ String c' e)
           | _ => mret tt
           end
       | _ => mret tt
       end);;
      (* lines 47-54 *)
      let worktreePath :=
        getWorktreePath utils (RepositoryInfo.path repoInfo) name
          (WorktreeConfig.worktreePathTemplate config) newBranch source in
      let basePath := dirname utils worktreePath in
      (* lines 56-64 *)
      enter (CallCreateWorktree
               (CreateRequest.mk name source newBranch basePath
                  (Branch.isRemote sourceBranchInfo)))
            (createWorktree worktreeService
               (CreateRequest.mk name source newBranch basePath
                  (Branch.isRemote sourceBranchInfo)));;
      emit (ConsoleLog worktreePath)
  end.

(** ** Predicates on traces *)

Definition isValidation (e : Event) : bool :=
  match e with
  | CallValidateDirectoryName _ _ | CallValidateBranchName _ _ => true
  | _ => false
  end.

(** A validator call that returned an error (a truthy string). *)
Definition validationFailed (e : Event) : bool :=
  match e with
  | CallValidateDirectoryName _ r | CallValidateBranchName _ r => truthy r
  | _ => false
  end.

(** The one call of [runCreate] that changes the repository, and whatever
    happens inside it. *)
Definition isMutation (e : Event) : bool :=
  match e with
  | CallCreateWorktree _ | Within _ => true
  | _ => false
  end.

(** Calls that reach Git at all, reading or writing. *)
Definition isGitCall (e : Event) : bool :=
  match e with
  | CallGetRepositoryInfo | CallListBranches _ => true
  | _ => isMutation e
  end.

Definition failed {A} (r : Run Event A) : Prop := exists message, outcome r = inl message.

(** [needle] occurs in [text]. *)
Definition contains (text needle : string) : Prop :=
  exists before after, text = before +:+ needle +:+ after.

(** The same as a test: [needle] starts at some position of [text]. *)
Fixpoint containsb (text needle : string) : bool :=
  String.prefix needle text ||
  match text with
  | EmptyString => false
  | String _ rest => containsb rest needle
  end.

Fixpoint hasChar (p : ascii -> bool) (s : string) : bool :=
  match s with
  | EmptyString => false
  | String c rest => p c || hasChar p rest
  end.

Definition hasSlash (s : string) : bool := hasChar (fun c => Ascii.eqb c slash) s.

(** ["<remote>/<rest>"] with a remote name: non-empty and free of ["/"]. *)
Definition remoteForm (s remote rest : string) : Prop :=
  s = remote +:+ "/" +:+ rest /\ remote <> "" /\ hasSlash remote = false.

(** ** Name validation (utils/path-utils) *)

Module PathUtilsModel.

Definition backslash : ascii := Ascii.ascii_of_nat 92.
Definition dot : ascii := "."%char.

Definition isPathSeparator (c : ascii) : bool :=
  Ascii.eqb c slash || Ascii.eqb c backslash.

Definition beginsWithDot (name : string) : bool :=
  match name with
  | String c _ => Ascii.eqb c dot
  | EmptyString => false
  end.

(** Modelled from the spec: [validateDirectoryName] of utils/path-utils,
    which is not among the sources.  Section 4.4: it "rejects empty
    names, names containing path separators, and names beginning with
    [.]".  The spec fixes when an error comes back, not its wording; the
    texts below only tell the three cases apart. *)
Definition validateDirectoryName (name : string) : option string :=
  match name with
  | EmptyString => Some "Directory name cannot be empty"
  | _ =>
      if hasChar isPathSeparator name
      then Some "Directory name cannot contain path separators"
      else if beginsWithDot name
      then Some "Directory name cannot start with a dot"
      else None
  end.

(** Space, tab, line feed, vertical tab, form feed, carriage return. *)
Definition isWhitespace (c : ascii) : bool :=
  let n := Ascii.nat_of_ascii c in
  Nat.eqb n 32 || (Nat.leb 9 n && Nat.leb n 13).

(** The characters git-check-ref-format refuses anywhere in a ref name:
    control characters and DEL, space, and [~ ^ : ? * [ \]. *)
Definition gitForbidsChar (c : ascii) : bool :=
  let n := Ascii.nat_of_ascii c in
  Nat.ltb n 32 || Nat.eqb n 127 ||
  existsb (Nat.eqb n) [32; 126; 94; 58; 63; 42; 91; 92]%nat.

(** Modelled from the spec: [validateBranchName] of utils/path-utils,
    which is not among the sources.  Section 4.4: it "rejects embedded
    whitespace and other characters Git disallows in ref names". *)
Definition validateBranchName (name : string) : option string :=
  if hasChar (fun c => isWhitespace c || gitForbidsChar c) name
  then Some "Branch name contains invalid characters"
  else None.

(** [skip] characters are still to be dropped (the rest of a token just
    replaced); otherwise copy, replacing [token] where it starts. *)
Fixpoint replaceToken (token by_ : string) (skip : nat) (s : string) : string :=
  match s with
  | EmptyString => EmptyString
  | String c rest =>
      match skip with
      | S k => replaceToken token by_ k rest
      | O =>
          if String.prefix token s && negb (String.eqb token "")
          then by_ +:+ replaceToken token by_ (String.length token - 1) rest
          else String c (replaceToken token by_ O rest)
      end
  end.

(** Modelled from the spec: [getWorktreePath] of utils/path-utils, which
    is not among the sources.  Section 4.3: the template's base-path
    token is expanded, every other text of the template stays as it is,
    and nothing can fail; the worktree's directory name is the last
    component. *)
Definition getWorktreePath (repoPath name template branch source : string)
  : string :=
  replaceToken "$BASE_PATH" repoPath O template +:+ "/" +:+ name.

(** Index of the last ["/"] of [s] that a character other than ["/"]
    follows; [pending] is the last ["/"] seen, [found] the answer so
    far, [i] the index of the head of [s]. *)
Fixpoint lastSeparator (pending found : option nat) (i : nat) (s : string)
  : option nat :=
  match s with
  | EmptyString => found
  | String c rest =>
      if Ascii.eqb c slash
      then lastSeparator (Some i) found (S i) rest
      else lastSeparator pending
             (match pending with Some _ => pending | None => found end)
             (S i) rest
  end.

(** [dirname] of node:path (POSIX): the loop runs over the indices from
    the end down to 1, skips trailing separators and stops at the first
    separator after that. *)
Definition dirname (path : string) : string :=
  match path with
  | EmptyString => "."
  | String c tail =>
      let hasRoot := Ascii.eqb c slash in
      match lastSeparator None None 1 tail with
      | None => if hasRoot then "/" else "."
      | Some end_ =>
          if hasRoot && Nat.eqb end_ 1 then "//"
          else String.substring 0 end_ path
      end
  end.

Definition utils : PathUtils :=
  Build_PathUtils validateDirectoryName validateBranchName
                  getWorktreePath dirname.

End PathUtilsModel.

(** ** The configuration schema (schemas/config-schema) *)

(** JSON values as a configuration file holds them. *)
#[warnings="-register-all"]
Inductive Json : Type :=
  | JNull
  | JBool (b : bool)
  | JNumber (n : Z)
  | JString (s : string)
  | JArray (items : list Json).

Module WorktreeConfigSchema.

Definition asString (v : Json) : option string :=
  match v with JString s => Some s | _ => None end.

Definition asBoolean (v : Json) : option bool :=
  match v with JBool b => Some b | _ => None end.

Definition asStringArray (v : Json) : option (list string) :=
  match v with JArray items => mapM asString items | _ => None end.

(** A field with [.default(d)]: an absent key yields [d], a present one
    has to be of the field's type. *)
Definition field {A} (decode : Json -> option A) (d : A)
    (input : gmap string Json) (key : string) : option A :=
  match input !! key with
  | None => Some d
  | Some v => decode v
  end.

(** Modelled from the spec: [WorktreeConfigSchema.parse] of
    schemas/config-schema, which is not among the sources.  Section 6
    lists the seven fields with their defaults (the same values the
    schema test expects), section 3 says that no field is required;
    [None] is the schema error.  Keys the schema does not know are
    dropped. *)
Definition parse (input : gmap string Json) : option WorktreeConfig.t :=
  patterns ← field asStringArray [".env*"; ".vscode/**"]
               input "worktreeCopyPatterns";
  ignores ← field asStringArray
              ["**/node_modules/**"; "**/dist/**"; "**/.git/**";
               "**/Thumbs.db"; "**/.DS_Store"]
              input "worktreeCopyIgnores";
  template ← field asString "$BASE_PATH.worktree" input "worktreePathTemplate";
  commands ← field asStringArray [] input "postCreateCmd";
  terminal ← field asString "" input "terminalCommand";
  deleteBranch ← field asBoolean false input "deleteBranchWithWorktree";
  showRemote ← field asBoolean true input "showRemoteBranches";
  Some (WorktreeConfig.mk patterns ignores template commands terminal
          deleteBranch showRemote).

End WorktreeConfigSchema.

(** constants/default-config.ts, line 3. *)
Definition DEFAULT_CONFIG : option WorktreeConfig.t :=
  WorktreeConfigSchema.parse ∅.

(** ** The Git service's branch listing *)

Module GitServiceModel.

(** Modelled from the spec: [listBranches] of the Git service, which is
    not among the sources.  Section 4.2: "local branches first, then
    remote branches when [includeRemote] is true". *)
Definition listBranches (locals remotes : list Branch.t)
    (includeRemote : bool) : list Branch.t :=
  locals ++ (if includeRemote then remotes else []).

End GitServiceModel.

(** ** Inside [createWorktree]: Git, file copy, post-create commands *)

(** [CommandResult] of the Git command runner. *)
Module CommandResult.
Record t : Type := mk {
  stdout : string;
  stderr : string;
  exitCode : Z;
  success : bool
}.
End CommandResult.

Module WorktreeServiceModel.

(** What a shell command came to: it could not be spawned ([inl], with
    the reason), or it ran and exited. *)
Definition Spawned : Type := string + CommandResult.t.

(** The outside world of one create operation.  [shell] is given the
    commands already run, so that a command's fate may depend on the
    ones before it. *)
Record Platform : Type := {
  gitWorktreeAdd : string -> string -> string -> bool -> CommandResult.t;
  copyFiles : string -> list string -> list string -> list string;
  shell : list string -> string -> string -> Spawned
}.

Record CreateResult : Type := {
  path : string;
  warnings : list string
}.

(** Section 4.6: "a command's non-zero exit or spawn failure". *)
Definition commandFailed (o : Spawned) : bool :=
  match o with
  | inl _ => true
  | inr r => negb (CommandResult.exitCode r =? 0)%Z
  end.

Definition failureText (o : Spawned) : string :=
  match o with
  | inl reason => reason
  | inr r => CommandResult.stderr r
  end.

(** Modelled from the spec: the post-create command executor, which is
    not among the sources.  Section 4.6: each command runs in the new
    worktree, in order, one after the other, whatever the ones before it
    came to; the result pairs each command with what it came to. *)
Fixpoint runPostCreate (shell : list string -> string -> string -> Spawned)
    (cwd : string) (ran commands : list string)
  : Run ServiceEvent (list (string * Spawned)) :=
  match commands with
  | [] => mret []
  | command :: rest =>
      emit (RunCommand command cwd);;
      results ← runPostCreate shell cwd (ran ++ [command]) rest;
      mret ((command, shell ran command cwd) :: results)
  end.

(** The directory of the new worktree: [name] under [basePath]. *)
Definition worktreeDirectory (req : CreateRequest.t) : string :=
  CreateRequest.basePath req +:+ "/" +:+ CreateRequest.name req.

(** Section 4.6: a warning carries "the command text and captured
    stderr". *)
Definition postCreateWarning (command : string) (o : Spawned) : string :=
  command +:+ ": " +:+ failureText o.

Definition postCreateWarnings (results : list (string * Spawned))
  : list string :=
  map (fun r => postCreateWarning (fst r) (snd r))
      (List.filter (fun r => commandFailed (snd r)) results).

(** Modelled from the spec: [createWorktree] of the worktree service,
    which is not among the sources.  Section 4.7, from [GitCreating] on:
    a [git worktree add] that exits non-zero ends the operation with
    Git's error output; after a successful one the files are copied and
    the post-create commands run, and what goes wrong there only adds
    warnings.  Section 6: the operation returns the path and the
    warnings, for the presentation layer to render. *)
Definition createWorktree (config : WorktreeConfig.t) (platform : Platform)
    (req : CreateRequest.t) : Run ServiceEvent CreateResult :=
  let worktreePath := worktreeDirectory req in
  emit (GitWorktreeAdd worktreePath (CreateRequest.sourceBranch req)
          (CreateRequest.newBranch req));;
  let added :=
    gitWorktreeAdd platform worktreePath (CreateRequest.sourceBranch req)
      (CreateRequest.newBranch req) (CreateRequest.isRemoteSource req) in
  if (CommandResult.exitCode added =? 0)%Z then
    emit (CopyFiles worktreePath);;
    let copyWarnings :=
      copyFiles platform worktreePath
        (WorktreeConfig.worktreeCopyPatterns config)
        (WorktreeConfig.worktreeCopyIgnores config) in
    results ← runPostCreate (shell platform) worktreePath []
                (WorktreeConfig.postCreateCmd config);
    mret {| path := worktreePath;
            warnings := copyWarnings ++ postCreateWarnings results |}
  else throw (CommandResult.stderr added).

(** The service [runCreate] is given, over a repository with the given
    root and branches; [runCreate] (line 56) does not look at what
    [createWorktree] returns. *)
Definition service (config : WorktreeConfig.t) (platform : Platform)
    (root : string) (locals remotes : list Branch.t) : WorktreeService :=
  Build_WorktreeService
    config
    (inr (RepositoryInfo.mk root))
    (fun includeRemote =>
       inr (GitServiceModel.listBranches locals remotes includeRemote))
    (fun req => createWorktree config platform req;; mret tt).

End WorktreeServiceModel.

(** ** A small repository to run the model on *)

Module Sample.
Import WorktreeServiceModel.

Definition locals : list Branch.t :=
  [Branch.mk "main" false true; Branch.mk "develop" false false].

Definition remotes : list Branch.t :=
  [Branch.mk "origin/HEAD" true false; Branch.mk "origin/main" true false;
   Branch.mk "origin/feat/x" true false].

Definition ok : CommandResult.t := CommandResult.mk "" "" 0 true.

Definition notFound (command : string) : Spawned :=
  inl ("/bin/sh: " +:+ command +:+ ": not found").

(** Git accepts every [worktree add]; nothing fails to copy; a command
    runs unless its name is the one of the CLI test. *)
Definition platform : Platform := {|
  gitWorktreeAdd := fun _ _ _ _ => ok;
  copyFiles := fun _ _ _ => [];
  shell := fun _ command _ =>
    if String.eqb command "this-command-does-not-exist-xyz"
    then notFound command else inr ok
|}.

Definition config (showRemote : bool) (commands : list string)
  : WorktreeConfig.t :=
  WorktreeConfig.mk [] [] "$BASE_PATH.worktree" commands "" false showRemote.

Definition service (showRemote : bool) (commands : list string)
  : WorktreeService :=
  WorktreeServiceModel.service (config showRemote commands) platform
    "/home/dev/app" locals remotes.

Definition args (name source : string) (branch : option string) : CliArgs.t :=
  CliArgs.mk "create" (Some name) (Some source) branch.

Definition run (showRemote : bool) (commands : list string)
    (a : CliArgs.t) : Run Event unit :=
  runCreate PathUtilsModel.utils a (service showRemote commands).

End Sample.

(** ** The runs of [runCreate], exit by exit *)

Section Runs.
Variable utils : PathUtils.
Variable args : CliArgs.t.
Variable svc : WorktreeService.

Definition includeRemote : bool :=
  WorktreeConfig.showRemoteBranches (getConfig svc).

(** Both required arguments are there (and not empty). *)
Definition given (name source : string) : Prop :=
  CliArgs.name args = Some name /\ name <> "" /\
  CliArgs.source args = Some source /\ source <> "".

Definition validated (name : string) : list Event :=
  [CallValidateDirectoryName name (validateDirectoryName utils name)].

(** The events of a run that gets as far as listing the branches. *)
Definition upToListing (name : string) : list Event :=
  validated name ++
  [CallGetConfig; CallGetRepositoryInfo; CallListBranches includeRemote].

(** Lines 40-45: the validator is called on a truthy [args.branch] only. *)
Definition branchCheck : list Event :=
  match CliArgs.branch args with
  | Some (String c b) =>
      [CallValidateBranchName (String c b)
         (validateBranchName utils (String c b))]
  | _ => []
  end.

Definition branchAccepted : Prop :=
  forall b, CliArgs.branch args = Some b -> b <> "" ->
            truthy (validateBranchName utils b) = false.

Definition worktreePathOf (root name source : string) (info : Branch.t)
  : string :=
  getWorktreePath utils root name
    (WorktreeConfig.worktreePathTemplate (getConfig svc))
    (resolveNewBranch (CliArgs.branch args) source (Branch.isRemote info))
    source.

(** Lines 56-62: the request handed to [createWorktree]. *)
Definition requestOf (root name source : string) (info : Branch.t)
  : CreateRequest.t :=
  CreateRequest.mk name source
    (resolveNewBranch (CliArgs.branch args) source (Branch.isRemote info))
    (dirname utils (worktreePathOf root name source info))
    (Branch.isRemote info).

Inductive CreateRun : Run Event unit -> Prop :=
  | MissingName :
      truthy (CliArgs.name args) = false ->
      CreateRun ([], inl "Missing required argument: --name (-n)")
  | MissingSource name :
      CliArgs.name args = Some name -> name <> "" ->
      truthy (CliArgs.source args) = false ->
      CreateRun ([], inl "Missing required argument: --source (-s)")
  | InvalidDirectory name source e :
      given name source ->
      validateDirectoryName utils name = Some e -> e <> "" ->
      CreateRun (validated name, inl ("Invalid directory name: " +:+ e))
  | NoRepository name source message :
      given name source ->
      truthy (validateDirectoryName utils name) = false ->
      getRepositoryInfo svc = inl message ->
      CreateRun (validated name ++ [CallGetConfig; CallGetRepositoryInfo],
                 inl message)
  | NoListing name source repo message :
      given name source ->
      truthy (validateDirectoryName utils name) = false ->
      getRepositoryInfo svc = inr repo ->
      listBranches svc includeRemote = inl message ->
      CreateRun (upToListing name, inl message)
  | SourceNotFound name source repo allBranches :
      given name source ->
      truthy (validateDirectoryName utils name) = false ->
      getRepositoryInfo svc = inr repo ->
      listBranches svc includeRemote = inr allBranches ->
      findBranch source allBranches = None ->
      CreateRun (upToListing name, inl (sourceMissing source))
  | InvalidBranch name source repo allBranches info b e :
      given name source ->
      truthy (validateDirectoryName utils name) = false ->
      getRepositoryInfo svc = inr repo ->
      listBranches svc includeRemote = inr allBranches ->
      findBranch source allBranches = Some info ->
      CliArgs.branch args = Some b -> b <> "" ->
      validateBranchName utils b = Some e -> e <> "" ->
      CreateRun (upToListing name ++ branchCheck,
                 inl ("Invalid branch name: " +:+ e))
  | Delegated name source repo allBranches info inside result :
      given name source ->
      truthy (validateDirectoryName utils name) = false ->
      getRepositoryInfo svc = inr repo ->
      listBranches svc includeRemote = inr allBranches ->
      findBranch source allBranches = Some info ->
      branchAccepted ->
      createWorktree svc
        (requestOf (RepositoryInfo.path repo) name source info)
        = (inside, result) ->
      CreateRun
        (upToListing name ++ branchCheck ++
         CallCreateWorktree
           (requestOf (RepositoryInfo.path repo) name source info)
         :: map Within inside ++
         match result with
         | inr _ =>
             [ConsoleLog
                (worktreePathOf (RepositoryInfo.path repo) name source info)]
         | inl _ => []
         end,
         match result with
         | inr _ => inr tt
         | inl message => inl message
         end).

End Runs.

(** [utils] with another branch-name validator in its place. *)
Definition withBranchValidator (validator : string -> option string)
    (utils : PathUtils) : PathUtils :=
  Build_PathUtils (validateDirectoryName utils) validator
                  (getWorktreePath utils) (dirname utils).

(** ** Paths of the configuration (constants/default-config.ts) *)

(** [`${v}`] for a [string | undefined]: [undefined] prints as its name. *)
Definition templateText (v : option string) : string :=
  match v with
  | Some s => s
  | None => "undefined"
  end.

(** Lines 4-7; [home] is [process.env.HOME]. *)
Definition LOCAL_CONFIG_FILE_NAME : string := ".branchlet.json".

Definition GLOBAL_CONFIG_DIR (home : option string) : string :=
  templateText home +:+ "/.branchlet".

Definition GLOBAL_CONFIG_FILE (home : option string) : string :=
  GLOBAL_CONFIG_DIR home +:+ "/settings.json".

Definition UPDATE_CHECK_FILE (home : option string) : string :=
  GLOBAL_CONFIG_DIR home +:+ "/.update-check".

(** ** The update checker (utils/update-checker.ts) *)

(** [try { body } catch { handler }]: what [body] did stays done. *)
Definition tryCatch {E A} (body : Run E A) (handler : string -> Run E A)
  : Run E A :=
  match body with
  | (t, inl message) => let '(t', r) := handler message in (t ++ t', r)
  | (t, inr a) => (t, inr a)
  end.

Module UpdateChecker.

(** JavaScript numbers as far as [isNewer] looks at them: what [Number]
    makes of a string, the literal [0], and [<] ([l > c] is [c < l]).
    [<] on numbers is a strict partial order, [NaN] being comparable to
    nothing; [Number("0")] is [0]. *)
Record JsNumbers : Type := {
  num : Type;
  toNumber : string -> num;
  zero : num;
  lessThan : num -> num -> bool;
  lessThan_irrefl : forall x, lessThan x x = false;
  lessThan_asym : forall x y, lessThan x y = true -> lessThan y x = false;
  toNumber_zero : toNumber "0" = zero
}.

Definition dot : ascii := "."%char.

(** [s.split(".")]: the pieces between the dots, empty ones included;
    never an empty array. *)
Fixpoint splitDot (s : string) : list string :=
  match s with
  | EmptyString => [EmptyString]
  | String c rest =>
      if Ascii.eqb c dot then EmptyString :: splitDot rest
      else match splitDot rest with
           | piece :: pieces => String c piece :: pieces
           | [] => [String c EmptyString]
           end
  end.

(** [parts[i] ?? 0]: the elements are numbers, so only an index past the
    end falls through to [0]. *)
Definition partAt (J : JsNumbers) (parts : list (num J)) (i : nat) : num J :=
  default (zero J) (parts !! i).

(** Lines 21-27: the loop from index [i], with [steps] rounds to go. *)
Fixpoint newerFrom (J : JsNumbers) (latestParts currentParts : list (num J))
    (i steps : nat) : bool :=
  match steps with
  | O => false
  | S k =>
      let l := partAt J latestParts i in
      let c := partAt J currentParts i in
      if lessThan J c l then true
      else if lessThan J l c then false
      else newerFrom J latestParts currentParts (S i) k
  end.

(** Lines 17-28. *)
Definition isNewer (J : JsNumbers) (latest current : string) : bool :=
  let latestParts := map (toNumber J) (splitDot latest) in
  let currentParts := map (toNumber J) (splitDot current) in
  newerFrom J latestParts currentParts 0 3.

Record UpdateInfo : Type := {
  current : string;
  latest : string
}.

Record CacheData : Type := {
  lastCheck : Z;
  latestVersion : string
}.

Definition CHECK_INTERVAL_MS : Z := 24 * 60 * 60 * 1000.
Definition FETCH_TIMEOUT_MS : Z := 3000.

Definition registryUrl (packageName : string) : string :=
  "https://registry.npmjs.org/" +:+ packageName +:+ "/latest".

(** What [checkForUpdate] asks of the outside. *)
Inductive UpdateEvent : Type :=
  | ReadFile (path : string)
  | Fetch (url : string)
  | Mkdir (path : string)
  | WriteFile (path : string) (content : CacheData).

(** The outside, for one call.  [readCache] is [readFile] followed by
    [JSON.parse], the parsed file taken at its declared type [CacheData];
    [now] is [Date.now()] when the cache is looked at, [nowAtWrite] when
    it is written; [fetchLatest] is the request and [response.json()],
    and gives [data.version]; a request that is aborted after
    [FETCH_TIMEOUT_MS] rejects like any other that fails. *)
Record World : Type := {
  readCache : string -> string + CacheData;
  now : Z;
  nowAtWrite : Z;
  fetchLatest : string -> string + option string;
  mkdir : string -> string + unit;
  writeFile : string -> CacheData -> string + unit
}.

(** [!forceCheck] for a [boolean | undefined]. *)
Definition forced (forceCheck : option bool) : bool :=
  match forceCheck with
  | Some true => true
  | _ => false
  end.

(** Lines 38-49: the version a fresh cache holds. *)
Definition fromCache (world : World) (home : option string)
  : Run UpdateEvent (option string) :=
  tryCatch
    (cache ← call (ReadFile (UPDATE_CHECK_FILE home))
                  (readCache world (UPDATE_CHECK_FILE home));
     if (now world - lastCheck cache <? CHECK_INTERVAL_MS)%Z
     then mret (Some (latestVersion cache))
     else mret None)
    (fun _ => mret None).

(** Lines 65-75: the cache is written under [try], what goes wrong there
    is dropped. *)
Definition saveCache (world : World) (home : option string) (version : string)
  : Run UpdateEvent unit :=
  tryCatch
    (call (Mkdir (GLOBAL_CONFIG_DIR home)) (mkdir world (GLOBAL_CONFIG_DIR home));;
     call (WriteFile (UPDATE_CHECK_FILE home)
             {| lastCheck := nowAtWrite world; latestVersion := version |})
          (writeFile world (UPDATE_CHECK_FILE home)
             {| lastCheck := nowAtWrite world; latestVersion := version |}))
    (fun _ => mret tt).

(** Lines 51-76: ask the registry, and keep a version that came back. *)
Definition fromRegistry (world : World) (home : option string)
    (packageName : string) : Run UpdateEvent (option string) :=
  version ← call (Fetch (registryUrl packageName))
                 (fetchLatest world (registryUrl packageName));
  (match version with
   | Some (String c v) => saveCache world home (String c v)
   | _ => mret tt
   end);;
  mret version.

(** Lines 30-86. *)
Definition checkForUpdate (J : JsNumbers) (world : World) (home : option string)
    (currentVersion packageName : string) (forceCheck : option bool)
  : Run UpdateEvent (option UpdateInfo) :=
  tryCatch
    (cached ← (if negb (forced forceCheck) then fromCache world home
               else mret None);
     latestVersion ← (if negb (truthy cached)
                      then fromRegistry world home packageName
                      else mret cached);
     match latestVersion with
     | Some (String c v) =>
         if isNewer J (String c v) currentVersion
         then mret (Some {| current := currentVersion; latest := String c v |})
         else mret None
     | _ => mret None
     end)
    (fun _ => mret None).

(** Lines 78-82, for a version that is there: the answer of
    [checkForUpdate] once it knows the latest version. *)
Definition announce (J : JsNumbers) (currentVersion latestVersion : string)
  : option UpdateInfo :=
  if isNewer J latestVersion currentVersion
  then Some {| current := currentVersion; latest := latestVersion |}
  else None.

(** A cache that [checkForUpdate] does not go by: it cannot be read or
    parsed, it is 24 hours old or older, or it holds no version. *)
Definition unusable (world : World) (home : option string) : Prop :=
  match readCache world (UPDATE_CHECK_FILE home) with
  | inl _ => True
  | inr cache =>
      (CHECK_INTERVAL_MS <= now world - lastCheck cache)%Z \/
      latestVersion cache = ""
  end.

(** Decimal digits only: the fragment of [Number] that version numbers
    use (exact for values below 2^53), everything else read as [NaN]
    ([None]). *)
Fixpoint digitsValue (acc : N) (s : string) : option N :=
  match s with
  | EmptyString => Some acc
  | String c rest =>
      let n := Ascii.N_of_ascii c in
      if (48 <=? n)%N && (n <=? 57)%N
      then digitsValue (acc * 10 + (n - 48))%N rest
      else None
  end.

Definition decimalLessThan (x y : option N) : bool :=
  match x, y with
  | Some a, Some b => (a <? b)%N
  | _, _ => false
  end.

(** The numbers of version strings made of decimal digits and dots, to
    run the model on. *)
Definition decimal : JsNumbers.
Proof.
  refine {| num := option N;
            toNumber := digitsValue 0;
            zero := Some 0%N;
            lessThan := decimalLessThan |}.
  - intros [a|]; [apply N.ltb_irrefl | reflexivity].
  - intros [a|] [b|]; simpl; try reflexivity; try discriminate.
    intros H. apply N.ltb_lt in H. apply N.ltb_ge. lia.
  - reflexivity.
Defined.

End UpdateChecker.

(** ** A machine to run the update check on *)

Module UpdateSample.
Import UpdateChecker.

Definition home : option string := Some "/home/dev".

(** The cache file holds [cache], if there is one; the clock reads
    [clock] (and 150 ms more when the cache is written); the registry
    answers [answer] for the package ["branchlet"]; the directory can be
    made and the file written. *)
Definition world (cache : option CacheData) (clock : Z)
    (answer : string + option string) : World := {|
  readCache := fun path =>
    match cache with
    | Some content =>
        if String.eqb path (UPDATE_CHECK_FILE home) then inr content
        else inl "ENOENT: no such file or directory"
    | None => inl "ENOENT: no such file or directory"
    end;
  now := clock;
  nowAtWrite := clock + 150;
  fetchLatest := fun url =>
    if String.eqb url (registryUrl "branchlet") then answer
    else inl "fetch failed";
  mkdir := fun _ => inr tt;
  writeFile := fun _ _ => inr tt
|}.

(** The same machine with a home directory that cannot be written to. *)
Definition readOnly (w : World) : World := {|
  readCache := readCache w;
  now := now w;
  nowAtWrite := nowAtWrite w;
  fetchLatest := fetchLatest w;
  mkdir := fun _ => inl "EACCES: permission denied";
  writeFile := fun _ _ => inl "EACCES: permission denied"
|}.

End UpdateSample.

(** ** Lemmas on the model *)

Lemma CreateRun_eq utils args svc (r r' : Run Event unit) :
  CreateRun utils args svc r -> r = r' -> CreateRun utils args svc r'.
Proof. intros H <-. exact H. Qed.

(** Every run of [runCreate] leaves by one of the eight exits. *)
Lemma runCreate_run utils args svc :
  CreateRun utils args svc (runCreate utils args svc).
Proof.
  unfold runCreate, requireArgument.
  destruct (CliArgs.name args) as [[|c name]|] eqn:Hname;
    try (apply MissingName; rewrite Hname; reflexivity).
  destruct (CliArgs.source args) as [[|c' source]|] eqn:Hsource;
    try (eapply MissingSource;
         [eassumption | discriminate | rewrite Hsource; reflexivity]).
  assert (Hgiven : given args (String c name) (String c' source))
    by (repeat split; auto; discriminate).
  cbn.
  destruct (validateDirectoryName utils (String c name))
    as [[|d e]|] eqn:Hdir; cbn;
    try (eapply CreateRun_eq;
         [eapply InvalidDirectory; [exact Hgiven | exact Hdir | discriminate]
         | unfold validated; rewrite Hdir; reflexivity]).
  all: assert (Hok : truthy (validateDirectoryName utils (String c name)) = false)
    by (rewrite Hdir; reflexivity).
  all: destruct (getRepositoryInfo svc) as [message|repo] eqn:Hrepo; cbn;
    try (eapply CreateRun_eq;
         [eapply NoRepository; [exact Hgiven | exact Hok | exact Hrepo]
         | unfold validated; rewrite Hdir; reflexivity]).
  all: fold (includeRemote svc).
  all: destruct (listBranches svc (includeRemote svc))
    as [message|allBranches] eqn:Hlist; cbn;
    try (eapply CreateRun_eq;
         [eapply NoListing; [exact Hgiven | exact Hok | exact Hrepo | exact Hlist]
         | unfold upToListing, validated; rewrite Hdir; reflexivity]).
  all: destruct (findBranch (String c' source) allBranches)
    as [info|] eqn:Hfind; cbn;
    try (eapply CreateRun_eq;
         [eapply SourceNotFound;
          [exact Hgiven | exact Hok | exact Hrepo | exact Hlist | exact Hfind]
         | unfold upToListing, validated; rewrite Hdir; reflexivity]).
  all: destruct (createWorktree svc _) as [inside result] eqn:Hcreate.
  all: destruct (CliArgs.branch args) as [[|cb b]|] eqn:Hbranch; cbn.
  all: try (destruct (validateBranchName utils (String cb b))
              as [[|ce e]|] eqn:Hval; cbn).
  all: try (eapply CreateRun_eq;
            [eapply InvalidBranch;
             [exact Hgiven | exact Hok | exact Hrepo | exact Hlist
             | exact Hfind | exact Hbranch | discriminate | exact Hval
             | discriminate]
            | unfold upToListing, validated, branchCheck;
              rewrite Hdir, Hbranch, Hval; reflexivity]).
  all: assert (Hacc : branchAccepted utils args)
    by (intros b' Hb' Hne; rewrite Hbranch in Hb'; inversion Hb'; subst;
        try congruence; rewrite Hval; reflexivity).
  all: rewrite <- Hbranch in Hcreate.
  all: destruct result as [message|[]]; cbn.
  all: eapply CreateRun_eq;
    [eapply Delegated;
     [exact Hgiven | exact Hok | exact Hrepo | exact Hlist | exact Hfind
     | exact Hacc | exact Hcreate]
    | unfold upToListing, validated, branchCheck, requestOf, worktreePathOf;
      rewrite Hdir, Hbranch, ?Hval; cbn; rewrite ?app_nil_r; reflexivity].
Qed.

(** Case analysis on the exit a run of [runCreate] takes. *)
Ltac by_exit utils args svc :=
  let Hrun := fresh "Hrun" in
  let r := fresh "r" in
  let Hr := fresh "Hr" in
  pose proof (runCreate_run utils args svc) as Hrun;
  remember (runCreate utils args svc) as r eqn:Hr;
  clear Hr; destruct Hrun; unfold trace, outcome, failed; cbn [fst snd].

Lemma validated_events utils name e :
  In e (validated utils name) ->
  e = CallValidateDirectoryName name (validateDirectoryName utils name).
Proof. unfold validated. simpl. intuition congruence. Qed.

Lemma upToListing_events utils svc name e :
  In e (upToListing utils svc name) ->
  e = CallValidateDirectoryName name (validateDirectoryName utils name) \/
  e = CallGetConfig \/ e = CallGetRepositoryInfo \/
  e = CallListBranches (includeRemote svc).
Proof. unfold upToListing, validated. simpl. intuition congruence. Qed.

Lemma branchCheck_events utils args e :
  In e (branchCheck utils args) ->
  exists b, CliArgs.branch args = Some b /\ b <> "" /\
            e = CallValidateBranchName b (validateBranchName utils b).
Proof.
  unfold branchCheck. destruct (CliArgs.branch args) as [[|c b]|]; simpl;
    try tauto.
  intros [<-|[]]. exists (String c b). repeat split; congruence.
Qed.

Lemma within_events (inside : list ServiceEvent) e :
  In e (map Within inside) -> exists s, e = Within s /\ In s inside.
Proof. rewrite in_map_iff. intros (s & <- & Hs). eauto. Qed.

(** The events of a run that reaches [createWorktree], sorted by where
    they stand. *)
Lemma delegated_events utils args svc name req inside (tail : list Event) e :
  In e (upToListing utils svc name ++ branchCheck utils args ++
        CallCreateWorktree req :: map Within inside ++ tail) ->
  In e (upToListing utils svc name) \/ In e (branchCheck utils args) \/
  e = CallCreateWorktree req \/ In e (map Within inside) \/ In e tail.
Proof.
  rewrite !in_app_iff. simpl. rewrite in_app_iff. intuition.
Qed.

Lemma findBranch_None source allBranches :
  findBranch source allBranches = None <->
  forall b, In b allBranches -> Branch.name b <> source.
Proof.
  unfold findBranch. split.
  - intros H b Hb Heq. apply (find_none _ _ H) in Hb.
    apply String.eqb_eq in Heq. congruence.
  - intros H. destruct (find _ allBranches) as [b|] eqn:Hfind; [|reflexivity].
    apply find_some in Hfind as [Hin Heq]. apply String.eqb_eq in Heq.
    now apply H in Hin.
Qed.

(** A request is handed to [createWorktree] only at the last exit. *)
Lemma create_call_inv utils args svc req :
  In (CallCreateWorktree req) (trace (runCreate utils args svc)) ->
  exists name source repo allBranches info,
    given args name source /\
    truthy (validateDirectoryName utils name) = false /\
    getRepositoryInfo svc = inr repo /\
    listBranches svc (includeRemote svc) = inr allBranches /\
    findBranch source allBranches = Some info /\
    branchAccepted utils args /\
    req = requestOf utils args svc (RepositoryInfo.path repo) name source info.
Proof.
  by_exit utils args svc; intros Hin;
    try (simpl in Hin; tauto);
    try (apply validated_events in Hin; discriminate).
  - apply in_app_iff in Hin as [Hin|Hin];
      [apply validated_events in Hin | simpl in Hin]; intuition discriminate.
  - apply upToListing_events in Hin. intuition discriminate.
  - apply upToListing_events in Hin. intuition discriminate.
  - apply in_app_iff in Hin as [Hin|Hin].
    + apply upToListing_events in Hin. intuition discriminate.
    + apply branchCheck_events in Hin as (? & _ & _ & ?). discriminate.
  - apply delegated_events in Hin as [Hin|[Hin|[Hin|[Hin|Hin]]]].
    + apply upToListing_events in Hin. intuition discriminate.
    + apply branchCheck_events in Hin as (? & _ & _ & ?). discriminate.
    + inversion Hin; subst. do 5 eexists. repeat split; eauto; apply H.
    + apply within_events in Hin as (? & ? & _). discriminate.
    + destruct result; simpl in Hin; intuition discriminate.
Qed.

(** Nothing but the last exit touches the repository. *)
Lemma mutation_inv utils args svc e :
  In e (trace (runCreate utils args svc)) -> isMutation e = true ->
  exists req, In (CallCreateWorktree req) (trace (runCreate utils args svc)).
Proof.
  by_exit utils args svc; intros Hin Hmut;
    try (simpl in Hin; tauto);
    try (apply validated_events in Hin; subst; discriminate).
  - apply in_app_iff in Hin as [Hin|Hin];
      [apply validated_events in Hin | simpl in Hin];
      intuition (subst; discriminate).
  - apply upToListing_events in Hin. intuition (subst; discriminate).
  - apply upToListing_events in Hin. intuition (subst; discriminate).
  - apply in_app_iff in Hin as [Hin|Hin].
    + apply upToListing_events in Hin. intuition (subst; discriminate).
    + apply branchCheck_events in Hin as (? & _ & _ & ?). subst. discriminate.
  - eexists. rewrite !in_app_iff. right. right. left. reflexivity.
Qed.

(** *** The remote prefix *)

Lemma hasSlash_cons c s :
  hasSlash (String c s) = Ascii.eqb c slash || hasSlash s.
Proof. reflexivity. Qed.

Lemma afterFirstSlash_app remote rest :
  hasSlash remote = false ->
  afterFirstSlash (remote +:+ "/" +:+ rest) = Some rest.
Proof.
  induction remote as [|c remote IH]; intros Hfree.
  - reflexivity.
  - rewrite hasSlash_cons in Hfree. apply orb_false_iff in Hfree as [Hc Hfree].
    simpl. rewrite Hc. now apply IH.
Qed.

Lemma afterFirstSlash_Some s tail :
  afterFirstSlash s = Some tail ->
  exists before, s = before +:+ "/" +:+ tail /\ hasSlash before = false.
Proof.
  revert tail. induction s as [|c s IH]; intros tail H; simpl in H.
  - discriminate.
  - destruct (Ascii.eqb c slash) eqn:Hc.
    + apply Ascii.eqb_eq in Hc. inversion H; subst.
      exists "". split; reflexivity.
    + destruct (IH _ H) as (before & -> & Hfree).
      exists (String c before). split; [reflexivity|].
      rewrite hasSlash_cons, Hc. exact Hfree.
Qed.

(** On ["<remote>/<rest>"] the replacement leaves [<rest>]. *)
Lemma stripRemotePrefix_remoteForm s remote rest :
  remoteForm s remote rest -> stripRemotePrefix s = rest.
Proof.
  intros (-> & Hne & Hfree). destruct remote as [|c remote]; [congruence|].
  rewrite hasSlash_cons in Hfree. apply orb_false_iff in Hfree as [Hc Hfree].
  simpl. rewrite Hc. now rewrite afterFirstSlash_app.
Qed.

(** On every other string the pattern does not match. *)
Lemma stripRemotePrefix_other s :
  ~ (exists remote rest, remoteForm s remote rest) -> stripRemotePrefix s = s.
Proof.
  intros Hno. destruct s as [|c s]; [reflexivity|]. simpl.
  destruct (Ascii.eqb c slash) eqn:Hc; [reflexivity|].
  destruct (afterFirstSlash s) as [tail|] eqn:Hafter; [|reflexivity].
  exfalso. apply Hno.
  destruct (afterFirstSlash_Some _ _ Hafter) as (before & -> & Hfree).
  exists (String c before), tail. repeat split; [discriminate|].
  rewrite hasSlash_cons, Hc. exact Hfree.
Qed.

(** ** Branch default resolution *)

(** C1.  When [args.branch] is omitted, the request handed to
    [createWorktree] carries, for a source that the listing marks remote
    and that reads ["<remote>/<rest>"], the new branch [<rest>]: the
    prefix up to and including the first ["/"] is gone.  For a local
    source, and for a source without such a prefix, the new branch is the
    source itself.  ["origin/feat/x"] gives ["feat/x"], and local ["main"]
    gives ["main"]. *)
Theorem default_branch_resolution :
  (forall utils args svc req,
      CliArgs.branch args = None ->
      In (CallCreateWorktree req) (trace (runCreate utils args svc)) ->
      exists source allBranches info,
        CliArgs.source args = Some source /\
        listBranches svc (includeRemote svc) = inr allBranches /\
        findBranch source allBranches = Some info /\
        CreateRequest.sourceBranch req = source /\
        CreateRequest.isRemoteSource req = Branch.isRemote info /\
        (Branch.isRemote info = true ->
         forall remote rest, remoteForm source remote rest ->
                             CreateRequest.newBranch req = rest) /\
        (Branch.isRemote info = false \/
         ~ (exists remote rest, remoteForm source remote rest) ->
         CreateRequest.newBranch req = source)) /\
  resolveNewBranch None "origin/feat/x" true = "feat/x" /\
  resolveNewBranch None "main" false = "main".
Proof.
  split; [|split; reflexivity].
  intros utils args svc req Hbranch Hin.
  apply create_call_inv in Hin
    as (name & source & repo & allBranches & info & Hgiven & _ & _ & Hlist
        & Hfind & _ & ->).
  exists source, allBranches, info.
  destruct Hgiven as (_ & _ & Hsource & _).
  repeat split; auto; unfold requestOf, resolveNewBranch; cbn;
    rewrite Hbranch; cbn.
  - intros Hremote remote rest Hform. rewrite Hremote.
    now apply stripRemotePrefix_remoteForm with (remote := remote).
  - intros [Hlocal|Hno].
    + now rewrite Hlocal.
    + destruct (Branch.isRemote info); [|reflexivity].
      now apply stripRemotePrefix_other.
Qed.

(** The run on ["origin/feat/x"] without [--branch], over the example
    repository. *)
Lemma default_branch_resolution_witness :
  exists source allBranches info,
    CliArgs.source (Sample.args "wt" "origin/feat/x" None) = Some source /\
    listBranches (Sample.service true []) true = inr allBranches /\
    findBranch source allBranches = Some info /\
    "origin/feat/x" = source /\
    true = Branch.isRemote info /\
    (Branch.isRemote info = true ->
     forall remote rest, remoteForm source remote rest -> "feat/x" = rest) /\
    (Branch.isRemote info = false \/
     ~ (exists remote rest, remoteForm source remote rest) ->
     "feat/x" = source).
Proof.
  apply (proj1 default_branch_resolution PathUtilsModel.utils
           (Sample.args "wt" "origin/feat/x" None) (Sample.service true [])
           (CreateRequest.mk "wt" "origin/feat/x" "feat/x"
              "/home/dev/app.worktree" true)).
  - reflexivity.
  - vm_compute. tauto.
Defined.

(** ** A source branch that is not listed *)

(** A run that hands nothing to [createWorktree] has thrown. *)
Lemma not_created_failed utils args svc :
  (forall req, ~ In (CallCreateWorktree req) (trace (runCreate utils args svc))) ->
  failed (runCreate utils args svc).
Proof.
  by_exit utils args svc; intros Hno; try (eexists; reflexivity).
  exfalso. eapply Hno. rewrite !in_app_iff. right. right. left. reflexivity.
Qed.

(** A run that lists the branches has passed the checks before that. *)
Lemma listing_call_inv utils args svc i :
  In (CallListBranches i) (trace (runCreate utils args svc)) ->
  i = includeRemote svc /\
  exists name source repo,
    given args name source /\
    truthy (validateDirectoryName utils name) = false /\
    getRepositoryInfo svc = inr repo.
Proof.
  by_exit utils args svc; intros Hin;
    try (simpl in Hin; tauto);
    try (apply validated_events in Hin; discriminate).
  - apply in_app_iff in Hin as [Hin|Hin];
      [apply validated_events in Hin | simpl in Hin]; intuition discriminate.
  - apply upToListing_events in Hin.
    split; [intuition congruence | eauto 6].
  - apply upToListing_events in Hin.
    split; [intuition congruence | eauto 6].
  - split; [|eauto 6].
    apply in_app_iff in Hin as [Hin|Hin].
    + apply upToListing_events in Hin. intuition congruence.
    + apply branchCheck_events in Hin as (? & _ & _ & ?). discriminate.
  - split; [|eauto 6].
    apply delegated_events in Hin as [Hin|[Hin|[Hin|[Hin|Hin]]]].
    + apply upToListing_events in Hin. intuition congruence.
    + apply branchCheck_events in Hin as (? & _ & _ & ?). discriminate.
    + discriminate.
    + apply within_events in Hin as (? & ? & _). discriminate.
    + destruct result; simpl in Hin; intuition discriminate.
Qed.

(** What a run comes to when the lookup finds nothing. *)
Lemma lookup_fails utils args svc source allBranches :
  CliArgs.source args = Some source ->
  listBranches svc (includeRemote svc) = inr allBranches ->
  findBranch source allBranches = None ->
  (forall req, ~ In (CallCreateWorktree req) (trace (runCreate utils args svc))) /\
  (In (CallListBranches (includeRemote svc)) (trace (runCreate utils args svc)) ->
   outcome (runCreate utils args svc) = inl (sourceMissing source)).
Proof.
  intros Hsource Hlist Hfind. split.
  - intros req Hin.
    apply create_call_inv in Hin
      as (name & source' & repo & all' & info & Hgiven & _ & _ & Hlist'
          & Hfind' & _).
    destruct Hgiven as (_ & _ & Hsource' & _). congruence.
  - revert Hsource Hlist Hfind.
    by_exit utils args svc; intros Hsource Hlist Hfind Hin;
      try (simpl in Hin; tauto);
      try (apply validated_events in Hin; discriminate);
      try (destruct H as (_ & _ & Hsource' & _); congruence).
    apply in_app_iff in Hin as [Hin|Hin];
      [apply validated_events in Hin | simpl in Hin]; intuition discriminate.
Qed.

(** A request that passes the checks of lines 11-25 gets to the listing. *)
Lemma reaches_listing utils args svc name source repo :
  given args name source ->
  truthy (validateDirectoryName utils name) = false ->
  getRepositoryInfo svc = inr repo ->
  In (CallListBranches (includeRemote svc)) (trace (runCreate utils args svc)).
Proof.
  intros (Hname & Hne & Hsource & Hne') Hdir Hrepo.
  revert Hname Hsource Hdir Hrepo.
  by_exit utils args svc; intros Hname Hsource Hdir Hrepo;
    try (unfold upToListing; rewrite !in_app_iff; simpl; tauto).
  - rewrite Hname in H. destruct name; [congruence | discriminate].
  - rewrite Hsource in H1. destruct source; [congruence | discriminate].
  - destruct H as (Hname' & _). assert (name0 = name) by congruence. subst.
    rewrite H0 in Hdir. destruct e; [congruence | discriminate].
  - congruence.
Qed.

Lemma append_assoc (a b c : string) : (a +:+ b) +:+ c = a +:+ b +:+ c.
Proof.
  induction a as [|x a IH]; [reflexivity|].
  change (String x ((a +:+ b) +:+ c) = String x (a +:+ b +:+ c)).
  now rewrite IH.
Qed.

Lemma contains_does_not_exist (before source : string) :
  contains (before +:+ source +:+ "' does not exist") "does not exist".
Proof.
  exists (before +:+ source +:+ "' "), "".
  rewrite !append_assoc. reflexivity.
Qed.

Lemma contains_sourceMissing source :
  contains (sourceMissing source) "does not exist".
Proof. exact (contains_does_not_exist "Source branch '" source). Qed.

(** C2, as the code has it.  When the source does not appear among the
    branches listed, the run throws and hands nothing to [createWorktree],
    so nothing in the repository changes.  A run that gets as far as the
    listing throws the error ["Source branch '<source>' does not exist"];
    that is every run on a request that passes the checks of lines 11-21,
    in a repository. *)
Theorem missing_source_rejected utils args svc source allBranches :
  CliArgs.source args = Some source ->
  listBranches svc (includeRemote svc) = inr allBranches ->
  (forall b, In b allBranches -> Branch.name b <> source) ->
  failed (runCreate utils args svc) /\
  (forall e, In e (trace (runCreate utils args svc)) -> isMutation e = false) /\
  (In (CallListBranches (includeRemote svc)) (trace (runCreate utils args svc)) ->
   outcome (runCreate utils args svc) = inl (sourceMissing source)) /\
  (forall name repo,
      CliArgs.name args = Some name -> name <> "" -> source <> "" ->
      truthy (validateDirectoryName utils name) = false ->
      getRepositoryInfo svc = inr repo ->
      outcome (runCreate utils args svc) = inl (sourceMissing source)) /\
  contains (sourceMissing source) "does not exist".
Proof.
  intros Hsource Hlist Hnone. apply findBranch_None in Hnone.
  destruct (lookup_fails utils args svc _ _ Hsource Hlist Hnone)
    as [Hnocreate Hmessage].
  repeat apply conj.
  - now apply not_created_failed.
  - intros e Hin. destruct (isMutation e) eqn:Hmut; [|reflexivity].
    destruct (mutation_inv _ _ _ _ Hin Hmut) as [req Hreq].
    now apply Hnocreate in Hreq.
  - exact Hmessage.
  - intros name repo Hname Hne Hne' Hdir Hrepo. apply Hmessage.
    apply (reaches_listing utils args svc name source repo); auto.
    repeat split; auto.
  - apply contains_sourceMissing.
Qed.

(** The CLI test's request: [--source nonexistent-branch-xyz]. *)
Lemma missing_source_rejected_witness :
  failed (Sample.run true [] (Sample.args "test-wt" "nonexistent-branch-xyz" None)) /\
  (forall e,
      In e (trace (Sample.run true []
                     (Sample.args "test-wt" "nonexistent-branch-xyz" None))) ->
      isMutation e = false) /\
  outcome (Sample.run true []
             (Sample.args "test-wt" "nonexistent-branch-xyz" None))
  = inl "Source branch 'nonexistent-branch-xyz' does not exist".
Proof.
  destruct (missing_source_rejected PathUtilsModel.utils
              (Sample.args "test-wt" "nonexistent-branch-xyz" None)
              (Sample.service true []) "nonexistent-branch-xyz"
              (Sample.locals ++ Sample.remotes))
    as (Hfailed & Hquiet & Hmessage & _ & _).
  - reflexivity.
  - reflexivity.
  - intros b Hb. simpl in Hb.
    repeat (destruct Hb as [<-|Hb]; [discriminate|]). destruct Hb.
  - split; [exact Hfailed | split; [exact Hquiet |]].
    apply Hmessage. vm_compute. tauto.
Defined.

Lemma prefix_app needle after : String.prefix needle (needle +:+ after) = true.
Proof.
  induction needle as [|c needle IH]; [now destruct after|].
  change (String.prefix (String c needle) (String c (needle +:+ after)) = true).
  simpl. destruct (ascii_dec c c); [exact IH | congruence].
Qed.

Lemma containsb_prefix text needle :
  String.prefix needle text = true -> containsb text needle = true.
Proof.
  intros H. destruct text as [|c text].
  - change (String.prefix needle "" || false = true). now rewrite H.
  - change (String.prefix needle (String c text) || containsb text needle = true).
    now rewrite H.
Qed.

Lemma contains_containsb text needle :
  contains text needle -> containsb text needle = true.
Proof.
  intros (before & after & ->). induction before as [|c before IH].
  - change (containsb (needle +:+ after) needle = true).
    apply containsb_prefix, prefix_app.
  - change (containsb (String c (before +:+ needle +:+ after)) needle = true).
    simpl. rewrite IH. apply orb_true_r.
Qed.

(** C2, as the claim has it, fails on a request that a check before the
    lookup refuses: with the directory name [".hidden-dir"] of the CLI
    test, or with an empty one, the run throws that check's error, not the
    not-found one, although the source is not a branch of the repository. *)
Lemma missing_source_rejected_counterexample :
  (forall b, In b (Sample.locals ++ Sample.remotes) ->
             Branch.name b <> "nonexistent-branch-xyz") /\
  outcome (Sample.run true []
             (Sample.args ".hidden-dir" "nonexistent-branch-xyz" None))
  = inl "Invalid directory name: Directory name cannot start with a dot" /\
  ~ contains "Invalid directory name: Directory name cannot start with a dot"
             "does not exist" /\
  outcome (Sample.run true [] (Sample.args "" "nonexistent-branch-xyz" None))
  = inl "Missing required argument: --name (-n)" /\
  ~ contains "Missing required argument: --name (-n)" "does not exist".
Proof.
  repeat apply conj; try reflexivity.
  - intros b Hb. simpl in Hb.
    repeat (destruct Hb as [<-|Hb]; [discriminate|]). destruct Hb.
  - intros H. apply contains_containsb in H. vm_compute in H. discriminate.
  - intros H. apply contains_containsb in H. vm_compute in H. discriminate.
Qed.

(** ** Remote branches that are not shown *)

Lemma find_app {A} (f : A -> bool) (l1 l2 : list A) :
  find f (l1 ++ l2) =
  match find f l1 with
  | Some x => Some x
  | None => find f l2
  end.
Proof.
  induction l1 as [|x l1 IH]; [reflexivity|]. simpl.
  destruct (f x); [reflexivity | exact IH].
Qed.

(** C10, as the code has it.  With [showRemoteBranches] off the lookup
    goes through the local branches only.  A source that names a remote
    branch of the repository (the full listing, local branches first,
    resolves it to a remote one) is then not found: the run throws and
    leaves the repository alone, the only listing it asks for is the one
    without remotes, and once it has asked, as it does for every request
    that passes the checks of lines 11-25, the error is
    ["Source branch '<source>' does not exist"]. *)
Theorem hidden_remote_not_found utils args svc source locals remotes info :
  WorktreeConfig.showRemoteBranches (getConfig svc) = false ->
  CliArgs.source args = Some source ->
  listBranches svc false = inr locals ->
  listBranches svc true = inr (locals ++ remotes) ->
  (forall b, In b locals -> Branch.isRemote b = false) ->
  findBranch source (locals ++ remotes) = Some info ->
  Branch.isRemote info = true ->
  failed (runCreate utils args svc) /\
  (forall e, In e (trace (runCreate utils args svc)) -> isMutation e = false) /\
  (forall i, In (CallListBranches i) (trace (runCreate utils args svc)) ->
             i = false) /\
  (In (CallListBranches false) (trace (runCreate utils args svc)) ->
   outcome (runCreate utils args svc) = inl (sourceMissing source)) /\
  (forall name repo,
      CliArgs.name args = Some name -> name <> "" -> source <> "" ->
      truthy (validateDirectoryName utils name) = false ->
      getRepositoryInfo svc = inr repo ->
      outcome (runCreate utils args svc) = inl (sourceMissing source)).
Proof.
  intros Hshow Hsource Hlocals _ Hlocal Hfind Hremote.
  assert (Hnone : findBranch source locals = None).
  { unfold findBranch in *. rewrite find_app in Hfind.
    destruct (find _ locals) as [b|] eqn:Hb; [|reflexivity].
    inversion Hfind; subst. apply find_some in Hb as [Hb _].
    apply Hlocal in Hb. congruence. }
  assert (Hinclude : includeRemote svc = false) by exact Hshow.
  rewrite <- Hinclude in Hlocals.
  destruct (lookup_fails utils args svc _ _ Hsource Hlocals Hnone)
    as [Hnocreate Hmessage].
  repeat apply conj.
  - now apply not_created_failed.
  - intros e Hin. destruct (isMutation e) eqn:Hmut; [|reflexivity].
    destruct (mutation_inv _ _ _ _ Hin Hmut) as [req Hreq].
    now apply Hnocreate in Hreq.
  - intros i Hin. apply listing_call_inv in Hin as [-> _]. exact Hinclude.
  - rewrite <- Hinclude. exact Hmessage.
  - intros name repo Hname Hne Hne' Hdir Hrepo. apply Hmessage.
    apply (reaches_listing utils args svc name source repo); auto.
    repeat split; auto.
Qed.

(** ["origin/main"] exists in the example repository, but remote branches
    are not shown. *)
Lemma hidden_remote_not_found_witness :
  failed (Sample.run false [] (Sample.args "wt" "origin/main" None)) /\
  (forall e,
      In e (trace (Sample.run false [] (Sample.args "wt" "origin/main" None))) ->
      isMutation e = false) /\
  outcome (Sample.run false [] (Sample.args "wt" "origin/main" None))
  = inl "Source branch 'origin/main' does not exist".
Proof.
  destruct (hidden_remote_not_found PathUtilsModel.utils
              (Sample.args "wt" "origin/main" None) (Sample.service false [])
              "origin/main" Sample.locals Sample.remotes
              (Branch.mk "origin/main" true false))
    as (Hfailed & Hquiet & _ & Hmessage & _).
  - reflexivity.
  - reflexivity.
  - reflexivity.
  - reflexivity.
  - intros b Hb. simpl in Hb.
    repeat (destruct Hb as [<-|Hb]; [reflexivity|]). destruct Hb.
  - reflexivity.
  - reflexivity.
  - split; [exact Hfailed | split; [exact Hquiet |]].
    apply Hmessage. vm_compute. tauto.
Defined.

(** C10, as the claim has it, fails on a request that a check before the
    lookup refuses: ["origin/main"] is a remote branch of the repository
    and remote branches are not shown, but with the directory name
    [".hidden-dir"] of the CLI test, or with an empty one, the run throws
    that check's error, not the not-found one. *)
Lemma hidden_remote_not_found_counterexample :
  findBranch "origin/main" (Sample.locals ++ Sample.remotes)
  = Some (Branch.mk "origin/main" true false) /\
  WorktreeConfig.showRemoteBranches (getConfig (Sample.service false [])) = false /\
  outcome (Sample.run false [] (Sample.args ".hidden-dir" "origin/main" None))
  = inl "Invalid directory name: Directory name cannot start with a dot" /\
  ~ contains "Invalid directory name: Directory name cannot start with a dot"
             "does not exist" /\
  outcome (Sample.run false [] (Sample.args "" "origin/main" None))
  = inl "Missing required argument: --name (-n)" /\
  ~ contains "Missing required argument: --name (-n)" "does not exist".
Proof.
  repeat apply conj; try reflexivity.
  - intros H. apply contains_containsb in H. vm_compute in H. discriminate.
  - intros H. apply contains_containsb in H. vm_compute in H. discriminate.
Qed.

(** ** When the branch name is validated *)

(** The validator is called on [args.branch] itself, and only if that is a
    non-empty string. *)
Lemma branch_validation_inv utils args svc b result :
  In (CallValidateBranchName b result) (trace (runCreate utils args svc)) ->
  CliArgs.branch args = Some b /\ b <> "" /\
  result = validateBranchName utils b.
Proof.
  by_exit utils args svc; intros Hin;
    try (simpl in Hin; tauto);
    try (apply validated_events in Hin; discriminate).
  - apply in_app_iff in Hin as [Hin|Hin];
      [apply validated_events in Hin | simpl in Hin]; intuition discriminate.
  - apply upToListing_events in Hin. intuition discriminate.
  - apply upToListing_events in Hin. intuition discriminate.
  - apply in_app_iff in Hin as [Hin|Hin].
    + apply upToListing_events in Hin. intuition discriminate.
    + apply branchCheck_events in Hin as (b' & ? & ? & Heq).
      inversion Heq; subst. auto.
  - apply delegated_events in Hin as [Hin|[Hin|[Hin|[Hin|Hin]]]].
    + apply upToListing_events in Hin. intuition discriminate.
    + apply branchCheck_events in Hin as (b' & ? & ? & Heq).
      inversion Heq; subst. auto.
    + discriminate.
    + apply within_events in Hin as (? & ? & _). discriminate.
    + destruct result0; simpl in Hin; intuition discriminate.
Qed.

(** C9.  When [args.branch] is omitted, [validateBranchName] is not called
    at all: no call of it is in the run, the run is the same whatever the
    validator would say, and the request handed to [createWorktree]
    carries the name derived from the source.  In any run the validator
    is called only on an explicit, non-empty [args.branch]. *)
Theorem defaulted_branch_not_validated :
  (forall utils args svc,
      CliArgs.branch args = None ->
      (forall b result,
          ~ In (CallValidateBranchName b result)
               (trace (runCreate utils args svc))) /\
      (forall validator,
          runCreate (withBranchValidator validator utils) args svc
          = runCreate utils args svc) /\
      (forall req,
          In (CallCreateWorktree req) (trace (runCreate utils args svc)) ->
          CreateRequest.newBranch req
          = resolveNewBranch None (CreateRequest.sourceBranch req)
              (CreateRequest.isRemoteSource req))) /\
  (forall utils args svc b result,
      In (CallValidateBranchName b result) (trace (runCreate utils args svc)) ->
      CliArgs.branch args = Some b /\ b <> "" /\
      result = validateBranchName utils b).
Proof.
  split.
  - intros utils args svc Hbranch. repeat split.
    + intros b result Hin. apply branch_validation_inv in Hin as [Hb _].
      congruence.
    + intros validator. unfold runCreate, withBranchValidator. cbn.
      rewrite Hbranch. reflexivity.
    + intros req Hin.
      apply create_call_inv in Hin as (? & ? & ? & ? & ? & _ & _ & _ & _ & _ & _ & ->).
      unfold requestOf. cbn. now rewrite Hbranch.
  - intros utils args svc b result. apply branch_validation_inv.
Qed.

(** A validator that refuses every name changes nothing for the run on
    ["origin/feat/x"] without [--branch]. *)
Lemma defaulted_branch_not_validated_witness :
  runCreate (withBranchValidator (fun _ => Some "refused") PathUtilsModel.utils)
            (Sample.args "wt" "origin/feat/x" None) (Sample.service true [])
  = runCreate PathUtilsModel.utils
              (Sample.args "wt" "origin/feat/x" None) (Sample.service true []).
Proof.
  apply (proj1 defaulted_branch_not_validated PathUtilsModel.utils
           (Sample.args "wt" "origin/feat/x" None) (Sample.service true [])
           eq_refl).
Defined.

(** ** Validation before mutation *)

Lemma split_before {A} (f : A -> bool) (P S before after : list A) (e : A) :
  P ++ S = before ++ e :: after ->
  (forall x, In x P -> f x = false) -> f e = true ->
  exists mid, before = P ++ mid /\ S = mid ++ e :: after.
Proof.
  revert before. induction P as [|p P IH]; intros before Heq HP He.
  - exists before. split; [reflexivity | exact Heq].
  - destruct before as [|b before]; simpl in Heq; inversion Heq; subst.
    + rewrite (HP e) in He; [discriminate | now left].
    + destruct (IH before) as (mid & -> & ->); auto.
      * intros x Hx. apply HP. now right.
      * exists mid. split; reflexivity.
Qed.

(** The shape of a run that hands a request to [createWorktree]. *)
Lemma create_trace_inv utils args svc req :
  In (CallCreateWorktree req) (trace (runCreate utils args svc)) ->
  exists name inside tail,
    CliArgs.name args = Some name /\
    truthy (validateDirectoryName utils name) = false /\
    branchAccepted utils args /\
    trace (runCreate utils args svc)
    = (upToListing utils svc name ++ branchCheck utils args) ++
      CallCreateWorktree req :: map Within inside ++ tail /\
    (forall x, In x tail -> exists line, x = ConsoleLog line).
Proof.
  by_exit utils args svc; intros Hin;
    try (simpl in Hin; tauto);
    try (apply validated_events in Hin; discriminate).
  - apply in_app_iff in Hin as [Hin|Hin];
      [apply validated_events in Hin | simpl in Hin]; intuition discriminate.
  - apply upToListing_events in Hin. intuition discriminate.
  - apply upToListing_events in Hin. intuition discriminate.
  - apply in_app_iff in Hin as [Hin|Hin].
    + apply upToListing_events in Hin. intuition discriminate.
    + apply branchCheck_events in Hin as (? & _ & _ & ?). discriminate.
  - pose proof Hin as Hin'.
    apply delegated_events in Hin as [Hin|[Hin|[Hin|[Hin|Hin]]]].
    + apply upToListing_events in Hin. intuition discriminate.
    + apply branchCheck_events in Hin as (? & _ & _ & ?). discriminate.
    + inversion Hin; subst. exists name, inside. eexists.
      repeat split; [apply H | assumption | assumption |].
      intros x Hx. destruct result; simpl in Hx; [tauto|].
      destruct Hx as [<-|[]]. eauto.
    + apply within_events in Hin as (? & ? & _). discriminate.
    + destruct result; simpl in Hin; intuition discriminate.
Qed.

Lemma checks_pass utils args svc name x :
  truthy (validateDirectoryName utils name) = false ->
  branchAccepted utils args ->
  In x (upToListing utils svc name ++ branchCheck utils args) ->
  isMutation x = false /\ validationFailed x = false.
Proof.
  intros Hdir Hbranch Hin. apply in_app_iff in Hin as [Hin|Hin].
  - apply upToListing_events in Hin.
    destruct Hin as [->|[->|[->| ->]]]; split; auto.
  - apply branchCheck_events in Hin as (b & Hb & Hne & ->).
    split; [reflexivity|]. simpl. now apply Hbranch.
Qed.

Lemma after_create_no_validation req inside (tail : list Event) x :
  (forall y, In y tail -> exists line, y = ConsoleLog line) ->
  In x (CallCreateWorktree req :: map Within inside ++ tail) ->
  isValidation x = false.
Proof.
  intros Htail [<-|Hin]; [reflexivity|].
  apply in_app_iff in Hin as [Hin|Hin].
  - apply within_events in Hin as (? & -> & _). reflexivity.
  - apply Htail in Hin as [? ->]. reflexivity.
Qed.

Lemma validation_not_failed x : isValidation x = false -> validationFailed x = false.
Proof. destruct x; simpl; congruence. Qed.

(** A failed validation stops the run before anything is changed. *)
Lemma failed_validation_stops utils args svc v :
  In v (trace (runCreate utils args svc)) -> validationFailed v = true ->
  failed (runCreate utils args svc) /\
  forall e, In e (trace (runCreate utils args svc)) -> isMutation e = false.
Proof.
  intros Hv Hfailed.
  assert (Hno : forall req,
             ~ In (CallCreateWorktree req) (trace (runCreate utils args svc))).
  { intros req Hin.
    destruct (create_trace_inv _ _ _ _ Hin)
      as (name & inside & tail & _ & Hdir & Hbranch & Htrace & Htail).
    rewrite Htrace in Hv. apply in_app_iff in Hv as [Hv|Hv].
    - apply (checks_pass _ _ _ _ _ Hdir Hbranch) in Hv as [_ Hv]. congruence.
    - apply (after_create_no_validation _ _ _ _ Htail) in Hv.
      apply validation_not_failed in Hv. congruence. }
  split; [now apply not_created_failed|].
  intros e Hin. destruct (isMutation e) eqn:Hmut; [|reflexivity].
  destruct (mutation_inv _ _ _ _ Hin Hmut) as [req Hreq].
  now apply Hno in Hreq.
Qed.

Lemma no_create_stops utils args svc :
  (forall req, ~ In (CallCreateWorktree req) (trace (runCreate utils args svc))) ->
  failed (runCreate utils args svc) /\
  forall e, In e (trace (runCreate utils args svc)) -> isMutation e = false.
Proof.
  intros Hno. split; [now apply not_created_failed|].
  intros e Hin. destruct (isMutation e) eqn:Hmut; [|reflexivity].
  destruct (mutation_inv _ _ _ _ Hin Hmut) as [req Hreq].
  now apply Hno in Hreq.
Qed.

(** C4, as the code has it.  Wherever a run of [runCreate] reaches
    [createWorktree] (or anything inside it), the directory name has been
    validated before that point and was accepted, a non-empty explicit
    [args.branch] has been validated before that point and was accepted,
    no validation before that point failed, and none takes place from
    that point on.  A validation that fails makes the run throw without
    any mutating call; so does a directory name, or an explicit branch
    name, that the validator refuses.  A branch name defaulted from the
    source is not validated (see the counterexample below). *)
Theorem validation_precedes_mutation utils args svc :
  (forall before e after,
      trace (runCreate utils args svc) = before ++ e :: after ->
      isMutation e = true ->
      (exists name,
          CliArgs.name args = Some name /\
          In (CallValidateDirectoryName name (validateDirectoryName utils name))
             before /\
          truthy (validateDirectoryName utils name) = false) /\
      (forall b,
          CliArgs.branch args = Some b -> b <> "" ->
          In (CallValidateBranchName b (validateBranchName utils b)) before /\
          truthy (validateBranchName utils b) = false) /\
      (forall v, In v before -> validationFailed v = false) /\
      (forall v, In v (e :: after) -> isValidation v = false)) /\
  (forall v,
      In v (trace (runCreate utils args svc)) -> validationFailed v = true ->
      failed (runCreate utils args svc) /\
      forall e, In e (trace (runCreate utils args svc)) -> isMutation e = false) /\
  (forall name,
      CliArgs.name args = Some name ->
      truthy (validateDirectoryName utils name) = true ->
      failed (runCreate utils args svc) /\
      forall e, In e (trace (runCreate utils args svc)) -> isMutation e = false) /\
  (forall b,
      CliArgs.branch args = Some b -> b <> "" ->
      truthy (validateBranchName utils b) = true ->
      failed (runCreate utils args svc) /\
      forall e, In e (trace (runCreate utils args svc)) -> isMutation e = false).
Proof.
  repeat apply conj.
  - intros before e after Htrace Hmut.
    assert (Hin : In e (trace (runCreate utils args svc)))
      by (rewrite Htrace, in_app_iff; right; now left).
    destruct (mutation_inv _ _ _ _ Hin Hmut) as [req Hreq].
    destruct (create_trace_inv _ _ _ _ Hreq)
      as (name & inside & tail & Hname & Hdir & Hbranch & Hshape & Htail).
    rewrite Hshape in Htrace.
    destruct (split_before isMutation _ _ _ _ _ Htrace) as (mid & -> & HS).
    { intros x Hx. now apply (checks_pass _ _ _ _ _ Hdir Hbranch) in Hx. }
    { exact Hmut. }
    repeat apply conj.
    + exists name. repeat split; auto.
      rewrite !in_app_iff. left. left. unfold upToListing, validated. now left.
    + intros b Hb Hne. split; [|now apply Hbranch].
      rewrite !in_app_iff. left. right.
      unfold branchCheck. rewrite Hb. destruct b; [congruence | now left].
    + intros v Hv. apply in_app_iff in Hv as [Hv|Hv].
      * now apply (checks_pass _ _ _ _ _ Hdir Hbranch) in Hv.
      * apply validation_not_failed.
        apply (after_create_no_validation req inside tail); [exact Htail|].
        rewrite HS, in_app_iff. now left.
    + intros v Hv.
      apply (after_create_no_validation req inside tail); [exact Htail|].
      rewrite HS, in_app_iff. now right.
  - apply failed_validation_stops.
  - intros name Hname Hrefused. apply no_create_stops. intros req Hin.
    apply create_call_inv in Hin
      as (name' & ? & ? & ? & ? & (Hname' & _) & Hdir & _).
    congruence.
  - intros b Hb Hne Hrefused. apply no_create_stops. intros req Hin.
    apply create_call_inv in Hin
      as (? & ? & ? & ? & ? & _ & _ & _ & _ & _ & Haccepted & _).
    rewrite (Haccepted b Hb Hne) in Hrefused. discriminate.
Qed.

(** The CLI test's request with [--branch "branch with spaces"]: the
    validation fails, the run throws and nothing is changed. *)
Lemma validation_precedes_mutation_witness :
  failed (Sample.run true []
            (Sample.args "test-wt" "main" (Some "branch with spaces"))) /\
  forall e,
    In e (trace (Sample.run true []
                   (Sample.args "test-wt" "main" (Some "branch with spaces")))) ->
    isMutation e = false.
Proof.
  apply (proj2 (proj2 (proj2
           (validation_precedes_mutation PathUtilsModel.utils
              (Sample.args "test-wt" "main" (Some "branch with spaces"))
              (Sample.service true []))))
           "branch with spaces").
  - reflexivity.
  - discriminate.
  - reflexivity.
Defined.

(** C4, as the claim has it, fails when [--branch] is omitted: the run on
    ["origin/feat/x"] hands the defaulted name ["feat/x"] to
    [createWorktree], and no branch-name validation has completed before
    that call. *)
Lemma validation_precedes_mutation_counterexample :
  ~ (forall before e after,
        trace (Sample.run true [] (Sample.args "wt" "origin/feat/x" None))
        = before ++ e :: after ->
        isMutation e = true ->
        exists b result,
          In (CallValidateBranchName b result) before /\
          truthy result = false).
Proof.
  intros Hclaim.
  destruct (Hclaim
              [CallValidateDirectoryName "wt" None; CallGetConfig;
               CallGetRepositoryInfo; CallListBranches true]
              (CallCreateWorktree
                 (CreateRequest.mk "wt" "origin/feat/x" "feat/x"
                    "/home/dev/app.worktree" true))
              [Within (GitWorktreeAdd "/home/dev/app.worktree/wt"
                         "origin/feat/x" "feat/x");
               Within (CopyFiles "/home/dev/app.worktree/wt");
               ConsoleLog "/home/dev/app.worktree/wt"])
    as (b & result & Hin & _).
  - reflexivity.
  - reflexivity.
  - simpl in Hin. intuition discriminate.
Qed.

(** ** An empty [--branch] *)

(** A request that passes every check is handed to [createWorktree]. *)
Lemma reaches_create utils args svc name source repo allBranches info :
  given args name source ->
  truthy (validateDirectoryName utils name) = false ->
  getRepositoryInfo svc = inr repo ->
  listBranches svc (includeRemote svc) = inr allBranches ->
  findBranch source allBranches = Some info ->
  branchAccepted utils args ->
  In (CallCreateWorktree
        (requestOf utils args svc (RepositoryInfo.path repo) name source info))
     (trace (runCreate utils args svc)).
Proof.
  intros (Hname & Hne & Hsource & Hne') Hdir Hrepo Hlist Hfind Hbranch.
  revert Hname Hsource Hdir Hrepo Hlist Hfind Hbranch.
  by_exit utils args svc; intros Hname Hsource Hdir Hrepo Hlist Hfind Hbranch.
  - rewrite Hname in H. destruct name; [congruence | discriminate].
  - rewrite Hsource in H1. destruct source; [congruence | discriminate].
  - destruct H as (Hname' & _). assert (name0 = name) by congruence. subst.
    rewrite H0 in Hdir. destruct e; [congruence | discriminate].
  - congruence.
  - congruence.
  - destruct H as (_ & _ & Hsource' & _). congruence.
  - assert (truthy (validateBranchName utils b) = false) by now apply Hbranch.
    rewrite H6 in H8. destruct e; [congruence | discriminate].
  - destruct H as (Hname' & _ & Hsource' & _).
    assert (name0 = name) by congruence.
    assert (source0 = source) by congruence.
    assert (repo0 = repo) by congruence.
    assert (allBranches0 = allBranches) by congruence. subst.
    assert (info0 = info) by congruence. subst.
    rewrite !in_app_iff. right. right. now left.
Qed.

(** C3, at an empty [--branch].  [!args.branch] and [if (args.branch)]
    take the empty string for an omitted branch, [args.branch ??
    defaultBranch] does not: when the request passes the checks before,
    the request handed to [createWorktree] has the empty string as its new
    branch, and [validateBranchName] has not been called. *)
Theorem empty_branch_reaches_createWorktree
    utils svc name source repo allBranches info :
  name <> "" -> source <> "" ->
  truthy (validateDirectoryName utils name) = false ->
  getRepositoryInfo svc = inr repo ->
  listBranches svc (includeRemote svc) = inr allBranches ->
  findBranch source allBranches = Some info ->
  exists req,
    In (CallCreateWorktree req)
       (trace (runCreate utils
                 (CliArgs.mk "create" (Some name) (Some source) (Some "")) svc)) /\
    CreateRequest.newBranch req = "" /\
    forall b result,
      ~ In (CallValidateBranchName b result)
           (trace (runCreate utils
                     (CliArgs.mk "create" (Some name) (Some source) (Some ""))
                     svc)).
Proof.
  intros Hname Hsource Hdir Hrepo Hlist Hfind.
  eexists. repeat split.
  - eapply reaches_create; eauto.
    + repeat split; auto.
    + intros b Hb Hne. simpl in Hb. congruence.
  - reflexivity.
  - intros b result Hin. apply branch_validation_inv in Hin as (Hb & Hne & _).
    simpl in Hb. congruence.
Qed.

(** [branchlet create -n wt -s main -b ""] in the example repository. *)
Lemma empty_branch_reaches_createWorktree_witness :
  exists req,
    In (CallCreateWorktree req)
       (trace (Sample.run true [] (Sample.args "wt" "main" (Some "")))) /\
    CreateRequest.newBranch req = "" /\
    forall b result,
      ~ In (CallValidateBranchName b result)
           (trace (Sample.run true [] (Sample.args "wt" "main" (Some "")))).
Proof.
  apply (empty_branch_reaches_createWorktree PathUtilsModel.utils
           (Sample.service true []) "wt" "main"
           (RepositoryInfo.mk "/home/dev/app")
           (Sample.locals ++ Sample.remotes)
           (Branch.mk "main" false true)).
  - discriminate.
  - discriminate.
  - reflexivity.
  - reflexivity.
  - reflexivity.
  - reflexivity.
Defined.

(** ** The validators *)

Lemma hasChar_weaken (p q : ascii -> bool) s :
  (forall c, p c = true -> q c = true) ->
  hasChar p s = true -> hasChar q s = true.
Proof.
  intros Hpq. induction s as [|c s IH]; simpl; [discriminate|].
  intros H. apply orb_true_iff in H as [H|H]; apply orb_true_iff; auto.
Qed.

Lemma validateDirectoryName_refuses name :
  name = "" \/ hasChar PathUtilsModel.isPathSeparator name = true \/
  PathUtilsModel.beginsWithDot name = true ->
  truthy (PathUtilsModel.validateDirectoryName name) = true.
Proof.
  unfold PathUtilsModel.validateDirectoryName.
  intros [->|[H|H]]; [reflexivity| |]; destruct name as [|c name];
    try reflexivity.
  - now rewrite H.
  - rewrite H. now destruct (hasChar _ _).
Qed.

(** A run whose directory name the validator refuses ends before the
    first call to Git. *)
Lemma refused_directory_stops utils args svc name :
  CliArgs.name args = Some name ->
  truthy (validateDirectoryName utils name) = true ->
  failed (runCreate utils args svc) /\
  forall e, In e (trace (runCreate utils args svc)) -> isGitCall e = false.
Proof.
  revert name.
  by_exit utils args svc; intros name' Hname Hrefused;
    try (split; [eexists; reflexivity | simpl; tauto]);
    try (destruct H as (Hname0 & _);
         assert (name = name') by congruence; subst; congruence).
  split; [eexists; reflexivity|].
  intros x Hx. apply validated_events in Hx. now subst.
Qed.

(** C5.  [validateDirectoryName] returns an error for the empty name, for
    a name with a path separator in it and for a name that begins with
    ["."]; so for [".hidden"], ["a/b"] and [""], and not for
    ["my-feature"].  [runCreate] throws on such a name before it calls Git
    at all. *)
Theorem directory_name_validation :
  (forall name,
      name = "" \/ hasChar PathUtilsModel.isPathSeparator name = true \/
      PathUtilsModel.beginsWithDot name = true ->
      truthy (PathUtilsModel.validateDirectoryName name) = true) /\
  truthy (PathUtilsModel.validateDirectoryName ".hidden") = true /\
  truthy (PathUtilsModel.validateDirectoryName "a/b") = true /\
  truthy (PathUtilsModel.validateDirectoryName "") = true /\
  PathUtilsModel.validateDirectoryName "my-feature" = None /\
  (forall utils args svc name,
      validateDirectoryName utils = PathUtilsModel.validateDirectoryName ->
      CliArgs.name args = Some name ->
      name = "" \/ hasChar PathUtilsModel.isPathSeparator name = true \/
      PathUtilsModel.beginsWithDot name = true ->
      failed (runCreate utils args svc) /\
      forall e, In e (trace (runCreate utils args svc)) -> isGitCall e = false).
Proof.
  repeat apply conj; try reflexivity.
  - apply validateDirectoryName_refuses.
  - intros utils args svc name Hutils Hname Hbad.
    apply refused_directory_stops with (name := name); [exact Hname|].
    rewrite Hutils. now apply validateDirectoryName_refuses.
Qed.

(** The CLI test's [--name .hidden-dir]. *)
Lemma directory_name_validation_witness :
  failed (Sample.run true [] (Sample.args ".hidden-dir" "main" None)) /\
  forall e,
    In e (trace (Sample.run true [] (Sample.args ".hidden-dir" "main" None))) ->
    isGitCall e = false.
Proof.
  apply (proj2 (proj2 (proj2 (proj2 (proj2 directory_name_validation))))
           PathUtilsModel.utils (Sample.args ".hidden-dir" "main" None)
           (Sample.service true []) ".hidden-dir").
  - reflexivity.
  - reflexivity.
  - right. right. reflexivity.
Defined.

(** The first half of C6, on the validator as section 4.4 describes it:
    [validateBranchName] returns an error for every name with a
    whitespace character in it, so for ["branch with spaces"], and none
    for ["feat/x-1"].  The other half - that the validators are pure,
    synchronous and total and do no I/O - says how functions that are not
    among the sources are implemented; functions of the model are that
    by the way they are written, so that no statement over them carries
    it. *)
Theorem branch_name_validation :
  (forall name,
      hasChar PathUtilsModel.isWhitespace name = true ->
      truthy (PathUtilsModel.validateBranchName name) = true) /\
  truthy (PathUtilsModel.validateBranchName "branch with spaces") = true /\
  PathUtilsModel.validateBranchName "feat/x-1" = None.
Proof.
  repeat apply conj; try reflexivity.
  intros name Hspace. unfold PathUtilsModel.validateBranchName.
  rewrite (hasChar_weaken PathUtilsModel.isWhitespace _ name); auto.
  intros c Hc. now rewrite Hc.
Qed.

(** A tab is whitespace as much as a space is. *)
Lemma branch_name_validation_witness :
  truthy (PathUtilsModel.validateBranchName
            (String (Ascii.ascii_of_nat 9) "x")) = true.
Proof.
  apply (proj1 branch_name_validation (String (Ascii.ascii_of_nat 9) "x")).
  reflexivity.
Defined.

(** ** The default configuration *)

Lemma field_delete {A} (decode : Json -> option A) d
    (input : gmap string Json) key key' :
  is_Some (WorktreeConfigSchema.field decode d input key) ->
  is_Some (WorktreeConfigSchema.field decode d (delete key' input) key).
Proof.
  unfold WorktreeConfigSchema.field. rewrite lookup_delete.
  case_decide; [eauto | auto].
Qed.

(** C8.  Parsing the empty object gives the seven documented defaults,
    and no field is required: a configuration that parses still parses
    with any one key left out. *)
Theorem default_config_values :
  DEFAULT_CONFIG =
    Some (WorktreeConfig.mk
            [".env*"; ".vscode/**"]
            ["**/node_modules/**"; "**/dist/**"; "**/.git/**";
             "**/Thumbs.db"; "**/.DS_Store"]
            "$BASE_PATH.worktree" [] "" false true) /\
  (forall (input : gmap string Json) key,
      is_Some (WorktreeConfigSchema.parse input) ->
      is_Some (WorktreeConfigSchema.parse (delete key input))).
Proof.
  split.
  - unfold DEFAULT_CONFIG, WorktreeConfigSchema.parse,
      WorktreeConfigSchema.field.
    rewrite !lookup_empty. reflexivity.
  - intros input key. unfold WorktreeConfigSchema.parse.
    repeat
      (match goal with
       | |- is_Some (WorktreeConfigSchema.field ?dec ?d input ?k ≫= _) -> _ =>
           let H := fresh "H" in
           pose proof (field_delete dec d input k key) as H;
           destruct (WorktreeConfigSchema.field dec d input k);
           [destruct H as [? ->]; [eauto|]; cbn
           | cbn; intros [? ?]; discriminate]
       end).
    eauto.
Qed.

(** The configuration of the CLI test, without its [terminalCommand]. *)
Lemma default_config_values_witness :
  is_Some (WorktreeConfigSchema.parse
             (delete "terminalCommand"
                (<["postCreateCmd" :=
                     JArray [JString "this-command-does-not-exist-xyz"]]>
                   (<["terminalCommand" := JString ""]> ∅)))).
Proof.
  apply (proj2 default_config_values). vm_compute. eauto.
Defined.

(** ** Runs that reach [createWorktree] *)

(** A run that reaches [createWorktree], in terms of what the service
    does with the request. *)
Lemma create_run_inv utils args svc req :
  In (CallCreateWorktree req) (trace (runCreate utils args svc)) ->
  exists head path,
    (forall x, In x head ->
               isMutation x = false /\ forall line, x <> ConsoleLog line) /\
    CreateRequest.basePath req = dirname utils path /\
    runCreate utils args svc
    = (head ++ CallCreateWorktree req
            :: map Within (fst (createWorktree svc req)) ++
               match snd (createWorktree svc req) with
               | inr _ => [ConsoleLog path]
               | inl _ => []
               end,
       match snd (createWorktree svc req) with
       | inr _ => inr tt
       | inl message => inl message
       end).
Proof.
  by_exit utils args svc; intros Hin;
    try (simpl in Hin; tauto);
    try (apply validated_events in Hin; discriminate).
  - apply in_app_iff in Hin as [Hin|Hin];
      [apply validated_events in Hin | simpl in Hin]; intuition discriminate.
  - apply upToListing_events in Hin. intuition discriminate.
  - apply upToListing_events in Hin. intuition discriminate.
  - apply in_app_iff in Hin as [Hin|Hin].
    + apply upToListing_events in Hin. intuition discriminate.
    + apply branchCheck_events in Hin as (? & _ & _ & ?). discriminate.
  - apply delegated_events in Hin as [Hin|[Hin|[Hin|[Hin|Hin]]]].
    + apply upToListing_events in Hin. intuition discriminate.
    + apply branchCheck_events in Hin as (? & _ & _ & ?). discriminate.
    + inversion Hin; subst. rewrite H5. cbn [fst snd].
      exists (upToListing utils svc name ++ branchCheck utils args).
      eexists. split; [|split; [reflexivity|]].
      * intros x Hx. split.
        -- now apply (checks_pass utils args svc name) in Hx.
        -- intros line ->. apply in_app_iff in Hx as [Hx|Hx].
           ++ apply upToListing_events in Hx. intuition discriminate.
           ++ apply branchCheck_events in Hx as (? & _ & _ & ?). discriminate.
      * rewrite <- app_assoc. reflexivity.
    + apply within_events in Hin as (? & ? & _). discriminate.
    + destruct result; simpl in Hin; intuition discriminate.
Qed.

(** ** Further properties of [runCreate] *)

(** X1.  Lines 11-16: the required arguments are checked before anything
    else.
    Without a name the run throws the error for [--name] and has done
    nothing; with a name and without a source it throws the error for
    [--source], likewise. *)
Theorem required_arguments_first utils args svc :
  (truthy (CliArgs.name args) = false ->
   runCreate utils args svc
   = ([], inl "Missing required argument: --name (-n)")) /\
  (truthy (CliArgs.name args) = true ->
   truthy (CliArgs.source args) = false ->
   runCreate utils args svc
   = ([], inl "Missing required argument: --source (-s)")).
Proof.
  unfold runCreate, requireArgument. split.
  - destruct (CliArgs.name args) as [[|c name]|]; simpl;
      try discriminate; reflexivity.
  - destruct (CliArgs.name args) as [[|c name]|]; simpl; try discriminate.
    destruct (CliArgs.source args) as [[|c' source]|]; simpl;
      try discriminate; reflexivity.
Qed.

(** The CLI test's request without [--source]. *)
Lemma required_arguments_first_witness :
  runCreate PathUtilsModel.utils (CliArgs.mk "create" (Some "test-wt") None None)
            (Sample.service true [])
  = ([], inl "Missing required argument: --source (-s)").
Proof.
  apply (proj2 (required_arguments_first PathUtilsModel.utils
                  (CliArgs.mk "create" (Some "test-wt") None None)
                  (Sample.service true []))); reflexivity.
Defined.

(** X2.  Lines 56-64: the path is printed after [createWorktree] has
    resolved,
    as the last thing the run does, and the request's [basePath] is its
    [dirname]; when [createWorktree] rejects, its error is the run's and
    nothing is printed. *)
Theorem created_path_is_printed utils args svc req :
  In (CallCreateWorktree req) (trace (runCreate utils args svc)) ->
  (snd (createWorktree svc req) = inr tt ->
   outcome (runCreate utils args svc) = inr tt /\
   exists earlier path,
     trace (runCreate utils args svc) = earlier ++ [ConsoleLog path] /\
     CreateRequest.basePath req = dirname utils path /\
     forall line, ~ In (ConsoleLog line) earlier) /\
  (forall message,
      snd (createWorktree svc req) = inl message ->
      outcome (runCreate utils args svc) = inl message /\
      forall line, ~ In (ConsoleLog line) (trace (runCreate utils args svc))).
Proof.
  intros Hin.
  destruct (create_run_inv _ _ _ _ Hin) as (head & path & Hhead & Hbase & Hrun).
  assert (Hquiet : forall line,
             ~ In (ConsoleLog line)
                  (head ++ CallCreateWorktree req
                        :: map Within (fst (createWorktree svc req)))).
  { intros line Hline. apply in_app_iff in Hline as [Hline|[Hline|Hline]].
    - apply Hhead in Hline as [_ Hline]. now apply (Hline line).
    - discriminate.
    - apply within_events in Hline as (? & ? & _). discriminate. }
  rewrite Hrun. unfold trace, outcome. cbn [fst snd]. split.
  - intros ->. split; [reflexivity|].
    exists (head ++ CallCreateWorktree req
                 :: map Within (fst (createWorktree svc req))), path.
    repeat split; [|exact Hbase | exact Hquiet].
    rewrite <- app_assoc. reflexivity.
  - intros message ->. split; [reflexivity|].
    rewrite app_nil_r. exact Hquiet.
Qed.

(** The run on local ["main"]: Git accepts, the path is printed. *)
Lemma created_path_is_printed_witness :
  outcome (Sample.run true [] (Sample.args "wt" "main" None)) = inr tt /\
  exists earlier path,
    trace (Sample.run true [] (Sample.args "wt" "main" None))
    = earlier ++ [ConsoleLog path] /\
    "/home/dev/app.worktree" = dirname PathUtilsModel.utils path /\
    forall line, ~ In (ConsoleLog line) earlier.
Proof.
  apply (proj1 (created_path_is_printed PathUtilsModel.utils
                  (Sample.args "wt" "main" None) (Sample.service true [])
                  (CreateRequest.mk "wt" "main" "main" "/home/dev/app.worktree"
                     false)
                  ltac:(vm_compute; tauto))).
  reflexivity.
Defined.

(** X3.  Lines 39 and 56-62: the request carries the name and the source as
    given, and an explicit branch as given; the listing's first branch of
    that name says whether the source is remote. *)
Theorem request_carries_arguments utils args svc req :
  In (CallCreateWorktree req) (trace (runCreate utils args svc)) ->
  CliArgs.name args = Some (CreateRequest.name req) /\
  CliArgs.source args = Some (CreateRequest.sourceBranch req) /\
  (forall b, CliArgs.branch args = Some b -> CreateRequest.newBranch req = b) /\
  exists allBranches info,
    listBranches svc (includeRemote svc) = inr allBranches /\
    findBranch (CreateRequest.sourceBranch req) allBranches = Some info /\
    CreateRequest.isRemoteSource req = Branch.isRemote info.
Proof.
  intros Hin.
  apply create_call_inv in Hin
    as (name & source & repo & allBranches & info & Hgiven & _ & _ & Hlist
        & Hfind & _ & ->).
  destruct Hgiven as (Hname & _ & Hsource & _).
  unfold requestOf. cbn. repeat apply conj; auto.
  - intros b Hb. unfold resolveNewBranch. now rewrite Hb.
  - exists allBranches, info. auto.
Qed.

(** The CLI test's remote source with an explicit branch. *)
Lemma request_carries_arguments_witness :
  exists allBranches info,
    listBranches (Sample.service true []) true = inr allBranches /\
    findBranch "origin/main" allBranches = Some info /\
    true = Branch.isRemote info.
Proof.
  apply (request_carries_arguments PathUtilsModel.utils
           (Sample.args "wt" "origin/main" (Some "test/cli-remote-explicit"))
           (Sample.service true [])
           (CreateRequest.mk "wt" "origin/main" "test/cli-remote-explicit"
              "/home/dev/app.worktree" true)).
  vm_compute. tauto.
Defined.

(** X17.  Lines 23-28: no repository, or no listing.  An error of the Git
    service is the run's error, as it is; after it nothing more is
    called: [listBranches] is not called when [getRepositoryInfo]
    rejects, and in neither case is a branch name validated or
    [createWorktree] called. *)
Theorem git_errors_propagate utils args svc name source message :
  given args name source ->
  truthy (validateDirectoryName utils name) = false ->
  (getRepositoryInfo svc = inl message ->
   runCreate utils args svc
   = ([CallValidateDirectoryName name (validateDirectoryName utils name);
       CallGetConfig; CallGetRepositoryInfo],
      inl message)) /\
  (forall repo,
      getRepositoryInfo svc = inr repo ->
      listBranches svc (includeRemote svc) = inl message ->
      runCreate utils args svc
      = ([CallValidateDirectoryName name (validateDirectoryName utils name);
          CallGetConfig; CallGetRepositoryInfo;
          CallListBranches (includeRemote svc)],
         inl message)).
Proof.
  intros Hgiven Hdir.
  pose proof (runCreate_run utils args svc) as Hrun.
  assert (Hsame : forall name', CliArgs.name args = Some name' -> name' = name)
    by (destruct Hgiven as (Hname & _); congruence).
  split.
  - intros Hrepo.
    destruct Hrun
      as [Hno|name' Hname' _ Hno|name' source' e Hg He Hne
          |name' source' message' Hg _ Hrepo'
          |name' source' repo message' Hg _ Hrepo' _
          |name' source' repo allBranches Hg _ Hrepo' _ _
          |name' source' repo allBranches info b e Hg _ Hrepo' _ _ _ _ _ _
          |name' source' repo allBranches info inside result Hg _ Hrepo' _ _ _ _];
      try (destruct Hgiven as (Hname & ? & Hsource & ?);
           rewrite ?Hname, ?Hsource in Hno; destruct name, source;
           simpl in Hno; congruence);
      try congruence.
    + destruct Hg as (Hname' & _). apply Hsame in Hname'. subst.
      rewrite He in Hdir. destruct e; [congruence | discriminate].
    + destruct Hg as (Hname' & _). apply Hsame in Hname'. subst.
      replace message' with message by congruence. reflexivity.
  - intros repo0 Hrepo Hlist.
    destruct Hrun
      as [Hno|name' Hname' _ Hno|name' source' e Hg He Hne
          |name' source' message' Hg _ Hrepo'
          |name' source' repo message' Hg _ _ Hlist'
          |name' source' repo allBranches Hg _ _ Hlist' _
          |name' source' repo allBranches info b e Hg _ _ Hlist' _ _ _ _ _
          |name' source' repo allBranches info inside result Hg _ _ Hlist' _ _ _];
      try (destruct Hgiven as (Hname & ? & Hsource & ?);
           rewrite ?Hname, ?Hsource in Hno; destruct name, source;
           simpl in Hno; congruence);
      try congruence.
    + destruct Hg as (Hname' & _). apply Hsame in Hname'. subst.
      rewrite He in Hdir. destruct e; [congruence | discriminate].
    + destruct Hg as (Hname' & _). apply Hsame in Hname'. subst.
      replace message' with message by congruence. reflexivity.
Qed.

(** [branchlet create -n wt -s main] outside a Git repository. *)
Lemma git_errors_propagate_witness :
  runCreate PathUtilsModel.utils (Sample.args "wt" "main" None)
    (Build_WorktreeService (Sample.config true [])
       (inl "fatal: not a git repository")
       (fun _ => inl "fatal: not a git repository")
       (fun _ => ([], inr tt)))
  = ([CallValidateDirectoryName "wt"
        (validateDirectoryName PathUtilsModel.utils "wt");
      CallGetConfig; CallGetRepositoryInfo],
     inl "fatal: not a git repository").
Proof.
  apply (proj1 (git_errors_propagate PathUtilsModel.utils
                  (Sample.args "wt" "main" None)
                  (Build_WorktreeService (Sample.config true [])
                     (inl "fatal: not a git repository")
                     (fun _ => inl "fatal: not a git repository")
                     (fun _ => ([], inr tt)))
                  "wt" "main" "fatal: not a git repository"
                  ltac:(vm_compute; repeat split; discriminate)
                  ltac:(reflexivity))).
  reflexivity.
Defined.

(** X18.  Lines 18-21 and 40-45: what the validators refuse is reported in
    their words.  A refused directory name ends the run with ["Invalid
    directory name: "] and the validator's message, before the
    configuration or Git is asked anything; a refused branch name ends it
    with ["Invalid branch name: "] and the validator's message, the call
    of the validator being the last thing the run did. *)
Theorem validation_errors_reported utils args svc :
  (forall name source e,
      given args name source ->
      validateDirectoryName utils name = Some e -> e <> "" ->
      runCreate utils args svc
      = ([CallValidateDirectoryName name (Some e)],
         inl ("Invalid directory name: " +:+ e))) /\
  (forall b e,
      In (CallValidateBranchName b (Some e))
         (trace (runCreate utils args svc)) ->
      e <> "" ->
      outcome (runCreate utils args svc)
      = inl ("Invalid branch name: " +:+ e) /\
      exists before,
        trace (runCreate utils args svc)
        = before ++ [CallValidateBranchName b (Some e)]).
Proof.
  split.
  - intros name source e (Hname & Hne & Hsource & Hse) He Hee.
    unfold runCreate, requireArgument. rewrite Hname, Hsource.
    destruct name as [|c name]; [congruence|].
    destruct source as [|c' source]; [congruence|].
    cbn. rewrite He. destruct e as [|d e]; [congruence|]. reflexivity.
  - intros b e Hin He.
    pose proof (branch_validation_inv _ _ _ _ _ Hin) as (Hb & Hbne & Hresult).
    revert Hin. by_exit utils args svc; intros Hin;
      try (simpl in Hin; tauto);
      try (apply validated_events in Hin; discriminate).
    + apply in_app_iff in Hin as [Hin|Hin];
        [apply validated_events in Hin | simpl in Hin]; intuition discriminate.
    + apply upToListing_events in Hin. intuition discriminate.
    + apply upToListing_events in Hin. intuition discriminate.
    + assert (b0 = b) by congruence. subst b0.
      assert (e0 = e) by congruence. subst e0.
      split; [reflexivity|]. exists (upToListing utils svc name).
      unfold branchCheck. rewrite Hb. destruct b; [congruence|].
      now rewrite <- Hresult.
    + exfalso.
      match goal with
      | Hacc : branchAccepted _ _ |- _ =>
          specialize (Hacc b Hb Hbne); rewrite <- Hresult in Hacc
      end.
      destruct e; [congruence | discriminate].
Qed.

(** The CLI test's [--branch "branch with spaces"]. *)
Lemma validation_errors_reported_witness :
  outcome (Sample.run true []
             (Sample.args "wt" "main" (Some "branch with spaces")))
  = inl ("Invalid branch name: "
         +:+ "Branch name contains invalid characters") /\
  exists before,
    trace (Sample.run true []
             (Sample.args "wt" "main" (Some "branch with spaces")))
    = before ++ [CallValidateBranchName "branch with spaces"
                   (Some "Branch name contains invalid characters")].
Proof.
  apply (proj2 (validation_errors_reported PathUtilsModel.utils
                  (Sample.args "wt" "main" (Some "branch with spaces"))
                  (Sample.service true []))
           "branch with spaces" "Branch name contains invalid characters").
  - vm_compute. tauto.
  - discriminate.
Defined.

(** X19.  Lines 56-62: [createWorktree] is called at most once in a run, and
    only after the branches have been listed. *)
Theorem createWorktree_called_once utils args svc req :
  In (CallCreateWorktree req) (trace (runCreate utils args svc)) ->
  exists before after,
    trace (runCreate utils args svc)
    = before ++ CallCreateWorktree req :: after /\
    In (CallListBranches (includeRemote svc)) before /\
    (forall req', ~ In (CallCreateWorktree req') before) /\
    (forall req', ~ In (CallCreateWorktree req') after).
Proof.
  intros Hin.
  destruct (create_trace_inv _ _ _ _ Hin)
    as (name & inside & tail & _ & Hdir & Hbranch & Htrace & Htail).
  exists (upToListing utils svc name ++ branchCheck utils args),
         (map Within inside ++ tail).
  split; [exact Htrace|]. split; [|split].
  - apply in_app_iff. left. unfold upToListing. apply in_app_iff. right.
    simpl. tauto.
  - intros req' Hreq'.
    now apply (checks_pass _ _ _ _ _ Hdir Hbranch) in Hreq' as [Hreq' _].
  - intros req' Hreq'. apply in_app_iff in Hreq' as [Hreq'|Hreq'].
    + apply within_events in Hreq' as (? & ? & _). discriminate.
    + apply Htail in Hreq' as [? ?]. discriminate.
Qed.

(** The run on local ["main"]. *)
Lemma createWorktree_called_once_witness :
  exists before after,
    trace (Sample.run true [] (Sample.args "wt" "main" None))
    = before ++ CallCreateWorktree
                  (CreateRequest.mk "wt" "main" "main"
                     "/home/dev/app.worktree" false) :: after /\
    In (CallListBranches (includeRemote (Sample.service true []))) before /\
    (forall req', ~ In (CallCreateWorktree req') before) /\
    (forall req', ~ In (CallCreateWorktree req') after).
Proof.
  apply (createWorktree_called_once PathUtilsModel.utils
           (Sample.args "wt" "main" None) (Sample.service true [])
           (CreateRequest.mk "wt" "main" "main" "/home/dev/app.worktree"
              false)).
  vm_compute. tauto.
Defined.

(** X20.  Lines 56-64: success comes from [createWorktree] alone.  A run that
    resolves has called [createWorktree], and that call resolved; and a
    run that prints anything to the standard output has resolved: the
    path is never printed by a run that fails. *)
Theorem success_only_through_createWorktree utils args svc :
  (outcome (runCreate utils args svc) = inr tt ->
   exists req,
     In (CallCreateWorktree req) (trace (runCreate utils args svc)) /\
     snd (createWorktree svc req) = inr tt) /\
  (forall line,
      In (ConsoleLog line) (trace (runCreate utils args svc)) ->
      outcome (runCreate utils args svc) = inr tt).
Proof.
  split.
  - by_exit utils args svc; try discriminate.
    destruct result as [message|[]]; [discriminate|]. intros _.
    eexists. split.
    + rewrite !in_app_iff. right. right. left. reflexivity.
    + match goal with Hcreate : createWorktree _ _ = _ |- _ =>
        now rewrite Hcreate end.
  - intros line. by_exit utils args svc; intros Hin;
      try (simpl in Hin; tauto);
      try (apply validated_events in Hin; discriminate).
    + apply in_app_iff in Hin as [Hin|Hin];
        [apply validated_events in Hin | simpl in Hin]; intuition discriminate.
    + apply upToListing_events in Hin. intuition discriminate.
    + apply upToListing_events in Hin. intuition discriminate.
    + apply in_app_iff in Hin as [Hin|Hin].
      * apply upToListing_events in Hin. intuition discriminate.
      * apply branchCheck_events in Hin as (? & _ & _ & ?). discriminate.
    + destruct result as [message|[]]; [|reflexivity]. exfalso.
      apply delegated_events in Hin as [Hin|[Hin|[Hin|[Hin|Hin]]]].
      * apply upToListing_events in Hin. intuition discriminate.
      * apply branchCheck_events in Hin as (? & _ & _ & ?). discriminate.
      * discriminate.
      * apply within_events in Hin as (? & ? & _). discriminate.
      * simpl in Hin. tauto.
Qed.

(** The run on local ["main"] resolves. *)
Lemma success_only_through_createWorktree_witness :
  exists req,
    In (CallCreateWorktree req)
       (trace (Sample.run true [] (Sample.args "wt" "main" None))) /\
    snd (createWorktree (Sample.service true []) req) = inr tt.
Proof.
  apply (proj1 (success_only_through_createWorktree PathUtilsModel.utils
                  (Sample.args "wt" "main" None) (Sample.service true []))).
  reflexivity.
Defined.

(** ** Comparing versions: [isNewer] *)

Section IsNewer.
Import UpdateChecker.
Variable J : JsNumbers.

Lemma newerFrom_irrefl parts i steps : newerFrom J parts parts i steps = false.
Proof.
  revert i. induction steps as [|k IH]; intros i; [reflexivity|].
  simpl. rewrite lessThan_irrefl. apply IH.
Qed.

Lemma newerFrom_asym latestParts currentParts i steps :
  newerFrom J latestParts currentParts i steps = true ->
  newerFrom J currentParts latestParts i steps = false.
Proof.
  revert i. induction steps as [|k IH]; intros i; [discriminate|].
  simpl.
  destruct (lessThan J (partAt J currentParts i) (partAt J latestParts i))
    eqn:Hgt.
  - intros _. now rewrite (lessThan_asym J _ _ Hgt).
  - destruct (lessThan J (partAt J latestParts i) (partAt J currentParts i));
      [discriminate | apply IH].
Qed.

(** The loop reads the parts at the indices it visits, nothing else. *)
Lemma newerFrom_ext p p' q q' i steps :
  (forall j, i <= j < i + steps -> partAt J p j = partAt J p' j) ->
  (forall j, i <= j < i + steps -> partAt J q j = partAt J q' j) ->
  newerFrom J p q i steps = newerFrom J p' q' i steps.
Proof.
  revert i. induction steps as [|k IH]; intros i Hp Hq; [reflexivity|].
  simpl. rewrite (Hp i), (Hq i) by lia.
  rewrite (IH (S i)); [reflexivity | |]; intros j Hj; [apply Hp | apply Hq]; lia.
Qed.

Lemma lookup_map {A B} (f : A -> B) (l : list A) (i : nat) :
  map f l !! i = option_map f (l !! i).
Proof.
  revert i. induction l as [|x l IH]; intros [|i]; simpl; auto.
Qed.

Lemma lookup_firstn {A} (l : list A) (n i : nat) :
  i < n -> firstn n l !! i = l !! i.
Proof.
  revert n i. induction l as [|x l IH]; intros [|n] [|i] H; simpl; auto; try lia.
  apply IH. lia.
Qed.

Lemma partAt_firstn (l l' : list string) (n i : nat) :
  firstn n l = firstn n l' -> i < n ->
  partAt J (map (toNumber J) l) i = partAt J (map (toNumber J) l') i.
Proof.
  intros Hsame Hi. unfold partAt. rewrite !lookup_map.
  rewrite <- (lookup_firstn l n i Hi), <- (lookup_firstn l' n i Hi).
  now rewrite Hsame.
Qed.

Lemma partAt_app_zero (parts : list (num J)) (i : nat) :
  partAt J (parts ++ [zero J]) i = partAt J parts i.
Proof.
  unfold partAt. revert i.
  induction parts as [|x parts IH]; intros [|i]; simpl; auto.
Qed.

Lemma splitDot_nonempty s : splitDot s <> [].
Proof.
  destruct s as [|c s]; simpl; [discriminate|].
  destruct (Ascii.eqb c dot); [discriminate|].
  destruct (splitDot s); discriminate.
Qed.

(** Splitting a text with a dot in it: the pieces before the dot, then the
    pieces after it. *)
Lemma splitDot_app a b :
  splitDot (a +:+ String dot b) = splitDot a ++ splitDot b.
Proof.
  induction a as [|c a IH].
  - reflexivity.
  - change (splitDot (String c (a +:+ String dot b))
            = splitDot (String c a) ++ splitDot b).
    simpl. rewrite IH.
    destruct (Ascii.eqb c dot); [reflexivity|].
    pose proof (splitDot_nonempty a).
    destruct (splitDot a); [congruence | reflexivity].
Qed.

(** X4.  [isNewer] is a strict comparison whatever the two strings hold: no
    version is newer than itself, and of two versions at most one is
    newer than the other. *)
Theorem isNewer_strict :
  (forall version, isNewer J version version = false) /\
  (forall latest current,
      isNewer J latest current = true -> isNewer J current latest = false).
Proof.
  split.
  - intros version. apply newerFrom_irrefl.
  - intros latest current. apply newerFrom_asym.
Qed.

(** X5.  Only the first three dot-separated parts of a version count: two
    versions with the same first three parts are interchangeable, on
    either side of the comparison. *)
Theorem isNewer_first_three version version' other :
  firstn 3 (splitDot version) = firstn 3 (splitDot version') ->
  isNewer J version other = isNewer J version' other /\
  isNewer J other version = isNewer J other version'.
Proof.
  intros Hsame. unfold isNewer. split; apply newerFrom_ext; intros j Hj;
    try reflexivity; apply (partAt_firstn _ _ 3); auto; lia.
Qed.

(** X6.  A missing part counts as [0]: writing one more [".0"] at the end
    of a version changes nothing, on either side of the comparison. *)
Theorem isNewer_trailing_zero version other :
  isNewer J (version +:+ ".0") other = isNewer J version other /\
  isNewer J other (version +:+ ".0") = isNewer J other version.
Proof.
  assert (Hparts : map (toNumber J) (splitDot (version +:+ ".0"))
                   = map (toNumber J) (splitDot version) ++ [zero J]).
  { change (version +:+ ".0") with (version +:+ String dot "0").
    rewrite splitDot_app, map_app. simpl. now rewrite toNumber_zero. }
  unfold isNewer. rewrite Hparts.
  split; apply newerFrom_ext; intros j _; try reflexivity;
    apply partAt_app_zero.
Qed.

End IsNewer.

(** ["1.2.3.4"] and ["1.2.3.9"] share their first three parts. *)
Lemma isNewer_first_three_witness :
  UpdateChecker.isNewer UpdateChecker.decimal "1.2.3.4" "1.2.0"
  = UpdateChecker.isNewer UpdateChecker.decimal "1.2.3.9" "1.2.0" /\
  UpdateChecker.isNewer UpdateChecker.decimal "1.2.0" "1.2.3.4"
  = UpdateChecker.isNewer UpdateChecker.decimal "1.2.0" "1.2.3.9".
Proof.
  apply (isNewer_first_three UpdateChecker.decimal "1.2.3.4" "1.2.3.9" "1.2.0").
  reflexivity.
Defined.

(** The update checker's test of partial versions: ["1.1"] against ["1.0"]. *)
Lemma isNewer_strict_witness :
  UpdateChecker.isNewer UpdateChecker.decimal "1.0" "1.1" = false.
Proof.
  apply (proj2 (isNewer_strict UpdateChecker.decimal) "1.1" "1.0").
  reflexivity.
Defined.

(** The loop answers [true] at the first index where the part of the
    latest version is the greater one, all parts before comparing
    neither way. *)
Lemma newerFrom_true J (p q : list (UpdateChecker.num J)) i steps :
  UpdateChecker.newerFrom J p q i steps = true <->
  exists k,
    k < steps /\
    UpdateChecker.lessThan J (UpdateChecker.partAt J q (i + k))
      (UpdateChecker.partAt J p (i + k)) = true /\
    forall j,
      j < k ->
      UpdateChecker.lessThan J (UpdateChecker.partAt J q (i + j))
        (UpdateChecker.partAt J p (i + j)) = false /\
      UpdateChecker.lessThan J (UpdateChecker.partAt J p (i + j))
        (UpdateChecker.partAt J q (i + j)) = false.
Proof.
  revert i. induction steps as [|n IH]; intros i; simpl.
  - split; [discriminate | intros (k & Hk & _); lia].
  - destruct (UpdateChecker.lessThan J (UpdateChecker.partAt J q i)
                (UpdateChecker.partAt J p i)) eqn:Hgt.
    + split; [intros _ | reflexivity]. exists 0. rewrite Nat.add_0_r.
      split; [lia|]. split; [exact Hgt | intros j Hj; lia].
    + destruct (UpdateChecker.lessThan J (UpdateChecker.partAt J p i)
                  (UpdateChecker.partAt J q i)) eqn:Hlt.
      * split; [discriminate|]. intros (k & Hk & Hk1 & Hbefore).
        destruct k as [|k].
        { rewrite Nat.add_0_r in Hk1. congruence. }
        destruct (Hbefore 0 ltac:(lia)) as [_ H0].
        rewrite Nat.add_0_r in H0. congruence.
      * rewrite IH. split.
        -- intros (k & Hk & Hk1 & Hbefore). exists (S k). split; [lia|].
           rewrite Nat.add_succ_r. split; [exact Hk1|].
           intros [|j] Hj.
           { rewrite Nat.add_0_r. auto. }
           rewrite Nat.add_succ_r. apply (Hbefore j). lia.
        -- intros (k & Hk & Hk1 & Hbefore). destruct k as [|k].
           { rewrite Nat.add_0_r in Hk1. congruence. }
           exists k. split; [lia|].
           rewrite Nat.add_succ_r in Hk1. split; [exact Hk1|].
           intros j Hj. specialize (Hbefore (S j) ltac:(lia)).
           rewrite Nat.add_succ_r in Hbefore. exact Hbefore.
Qed.

(** X21.  [isNewer] compares part by part, as numbers: it answers [true]
    exactly when, among the first three parts (a missing one counting as
    [0]), there is one where the latest version has the greater number
    and at no part before it do the two numbers compare either way - so
    parts that are equal, or that [Number] cannot read, are passed
    over. *)
Theorem isNewer_first_difference J latest current :
  UpdateChecker.isNewer J latest current = true <->
  exists i,
    i < 3 /\
    UpdateChecker.lessThan J
      (UpdateChecker.partAt J
         (map (UpdateChecker.toNumber J) (UpdateChecker.splitDot current)) i)
      (UpdateChecker.partAt J
         (map (UpdateChecker.toNumber J) (UpdateChecker.splitDot latest)) i)
    = true /\
    forall j,
      j < i ->
      UpdateChecker.lessThan J
        (UpdateChecker.partAt J
           (map (UpdateChecker.toNumber J) (UpdateChecker.splitDot current)) j)
        (UpdateChecker.partAt J
           (map (UpdateChecker.toNumber J) (UpdateChecker.splitDot latest)) j)
      = false /\
      UpdateChecker.lessThan J
        (UpdateChecker.partAt J
           (map (UpdateChecker.toNumber J) (UpdateChecker.splitDot latest)) j)
        (UpdateChecker.partAt J
           (map (UpdateChecker.toNumber J) (UpdateChecker.splitDot current)) j)
      = false.
Proof.
  unfold UpdateChecker.isNewer. apply newerFrom_true.
Qed.

(** ["1.10.0"] is newer than ["1.9.0"]: the second parts are compared as
    the numbers 10 and 9, not as texts. *)
Lemma isNewer_first_difference_witness :
  UpdateChecker.isNewer UpdateChecker.decimal "1.10.0" "1.9.0" = true.
Proof.
  apply (proj2 (isNewer_first_difference UpdateChecker.decimal
                  "1.10.0" "1.9.0")).
  exists 1. split; [lia|]. split; [reflexivity|].
  intros [|j] Hj; [split; reflexivity | lia].
Defined.

(** ** Checking for an update: [checkForUpdate] *)

Section CheckForUpdate.
Import UpdateChecker.
Variable J : JsNumbers.
Variable world : World.
Variable home : option string.

Lemma fromCache_run :
  fromCache world home
  = ([ReadFile (UPDATE_CHECK_FILE home)],
     inr match readCache world (UPDATE_CHECK_FILE home) with
         | inr cache =>
             if (now world - lastCheck cache <? CHECK_INTERVAL_MS)%Z
             then Some (latestVersion cache) else None
         | inl _ => None
         end).
Proof.
  unfold fromCache, tryCatch, call.
  destruct (readCache world (UPDATE_CHECK_FILE home)) as [message|cache];
    [reflexivity|].
  cbn. now destruct (_ <? _)%Z.
Qed.

Lemma saveCache_run version :
  saveCache world home version
  = (Mkdir (GLOBAL_CONFIG_DIR home)
     :: match mkdir world (GLOBAL_CONFIG_DIR home) with
        | inr _ =>
            [WriteFile (UPDATE_CHECK_FILE home)
               {| lastCheck := nowAtWrite world; latestVersion := version |}]
        | inl _ => []
        end,
     inr tt).
Proof.
  unfold saveCache, tryCatch, call.
  destruct (mkdir world (GLOBAL_CONFIG_DIR home)) as [message|[]];
    [reflexivity|].
  cbn. now destruct (writeFile world _ _) as [message|[]].
Qed.

Lemma fromRegistry_run packageName :
  fromRegistry world home packageName
  = match fetchLatest world (registryUrl packageName) with
    | inl message => ([Fetch (registryUrl packageName)], inl message)
    | inr version =>
        (Fetch (registryUrl packageName)
         :: match version with
            | Some (String c v) => fst (saveCache world home (String c v))
            | _ => []
            end,
         inr version)
    end.
Proof.
  unfold fromRegistry, call.
  destruct (fetchLatest world (registryUrl packageName))
    as [message|[[|c v]|]]; try reflexivity.
  cbn. rewrite saveCache_run. cbn. now rewrite app_nil_r.
Qed.

(** A check that does not go by the cache: what the registry says decides. *)
Lemma registry_decides currentVersion packageName forceCheck :
  forced forceCheck = true \/ unusable world home ->
  checkForUpdate J world home currentVersion packageName forceCheck
  = ((if forced forceCheck then [] else [ReadFile (UPDATE_CHECK_FILE home)])
     ++ fst (fromRegistry world home packageName),
     inr match fetchLatest world (registryUrl packageName) with
         | inr (Some (String c v)) => announce J currentVersion (String c v)
         | _ => None
         end).
Proof.
  intros Hwhy. unfold checkForUpdate.
  assert (Hcached : exists cached,
            (if negb (forced forceCheck) then fromCache world home
             else mret None)
            = ((if forced forceCheck then []
                else [ReadFile (UPDATE_CHECK_FILE home)]), inr cached) /\
            truthy cached = false).
  { destruct (forced forceCheck) eqn:Hforced; [exists None; auto|].
    destruct Hwhy as [?|Hwhy]; [discriminate|].
    cbn. rewrite fromCache_run. unfold unusable in Hwhy.
    destruct (readCache world (UPDATE_CHECK_FILE home)) as [message|cache];
      [exists None; auto|].
    destruct Hwhy as [Hold|Hempty].
    - apply Z.ltb_ge in Hold. rewrite Hold. exists None; auto.
    - rewrite Hempty. destruct (_ <? _)%Z; [exists (Some "") | exists None]; auto. }
  destruct Hcached as (cached & -> & Hfalsy).
  generalize (fromRegistry_run packageName).
  generalize (fromRegistry world home packageName). intros [asked version] Hreg.
  cbn -[isNewer]. rewrite Hfalsy. cbn -[isNewer].
  destruct (fetchLatest world (registryUrl packageName))
    as [message|[[|c v]|]]; inversion Hreg; subst; cbn -[isNewer];
    rewrite ?app_nil_r; try reflexivity.
  unfold announce.
  destruct (isNewer J (String c v) currentVersion); cbn;
    rewrite ?app_nil_r; reflexivity.
Qed.

(** A check that goes by the cache: one read, and the cached version
    decides. *)
Lemma cache_decides currentVersion packageName forceCheck cache :
  forced forceCheck = false ->
  readCache world (UPDATE_CHECK_FILE home) = inr cache ->
  (now world - lastCheck cache < CHECK_INTERVAL_MS)%Z ->
  latestVersion cache <> "" ->
  checkForUpdate J world home currentVersion packageName forceCheck
  = ([ReadFile (UPDATE_CHECK_FILE home)],
     inr (announce J currentVersion (latestVersion cache))).
Proof.
  intros Hforced Hread Hfresh Hversion. unfold checkForUpdate.
  rewrite Hforced. cbn -[isNewer]. rewrite fromCache_run, Hread.
  apply Z.ltb_lt in Hfresh. rewrite Hfresh.
  destruct (latestVersion cache) as [|c v] eqn:Hv; [congruence|].
  cbn -[isNewer]. unfold announce.
  destruct (isNewer J (String c v) currentVersion); reflexivity.
Qed.

(** Every check goes one way or the other. *)
Lemma usable_or_not forceCheck :
  (forced forceCheck = true \/ unusable world home) \/
  (forced forceCheck = false /\
   exists cache,
     readCache world (UPDATE_CHECK_FILE home) = inr cache /\
     (now world - lastCheck cache < CHECK_INTERVAL_MS)%Z /\
     latestVersion cache <> "").
Proof.
  destruct (forced forceCheck); [auto|].
  unfold unusable.
  destruct (readCache world (UPDATE_CHECK_FILE home)) as [message|cache];
    [auto|].
  destruct (Z.lt_ge_cases (now world - lastCheck cache) CHECK_INTERVAL_MS);
    [|auto].
  destruct (string_dec (latestVersion cache) ""); [auto|].
  right. split; [reflexivity|]. eauto.
Qed.

Lemma fromRegistry_trace packageName :
  fst (fromRegistry world home packageName)
  = Fetch (registryUrl packageName)
    :: match fetchLatest world (registryUrl packageName) with
       | inr (Some (String c v)) =>
           Mkdir (GLOBAL_CONFIG_DIR home)
           :: match mkdir world (GLOBAL_CONFIG_DIR home) with
              | inr _ =>
                  [WriteFile (UPDATE_CHECK_FILE home)
                     {| lastCheck := nowAtWrite world;
                        latestVersion := String c v |}]
              | inl _ => []
              end
       | _ => []
       end.
Proof.
  rewrite fromRegistry_run.
  destruct (fetchLatest world (registryUrl packageName))
    as [message|[[|c v]|]]; try reflexivity.
  cbn [fst]. now rewrite saveCache_run.
Qed.

Lemma announce_inv currentVersion version info :
  announce J currentVersion version = Some info ->
  current info = currentVersion /\ latest info = version /\
  isNewer J version currentVersion = true.
Proof.
  unfold announce. destruct (isNewer J version currentVersion);
    [|discriminate].
  intros Hinfo. inversion Hinfo; subst. auto.
Qed.

(** The cache is written at one place only. *)
Lemma write_inv currentVersion packageName forceCheck path content :
  In (WriteFile path content)
     (trace (checkForUpdate J world home currentVersion packageName
               forceCheck)) ->
  (forced forceCheck = true \/ unusable world home) /\
  path = UPDATE_CHECK_FILE home /\
  lastCheck content = nowAtWrite world /\
  latestVersion content <> "" /\
  fetchLatest world (registryUrl packageName)
  = inr (Some (latestVersion content)) /\
  mkdir world (GLOBAL_CONFIG_DIR home) = inr tt /\
  trace (checkForUpdate J world home currentVersion packageName forceCheck)
  = (if forced forceCheck then [] else [ReadFile (UPDATE_CHECK_FILE home)])
    ++ [Fetch (registryUrl packageName); Mkdir (GLOBAL_CONFIG_DIR home);
        WriteFile path content].
Proof.
  intros Hin.
  destruct (usable_or_not forceCheck)
    as [Hwhy|(Hforced & cache & Hread & Hfresh & Hne)].
  2:{ rewrite (cache_decides _ _ _ _ Hforced Hread Hfresh Hne) in Hin.
      simpl in Hin. intuition discriminate. }
  split; [exact Hwhy|].
  rewrite (registry_decides _ _ _ Hwhy) in Hin.
  rewrite (registry_decides _ _ _ Hwhy).
  unfold trace in *. cbn [fst] in *. rewrite fromRegistry_trace in *.
  apply in_app_iff in Hin as [Hin|Hin].
  { destruct (forced forceCheck); simpl in Hin; intuition discriminate. }
  destruct Hin as [Hin|Hin]; [discriminate|].
  destruct (fetchLatest world (registryUrl packageName))
    as [message|[[|c v]|]]; try (simpl in Hin; tauto).
  destruct Hin as [Hin|Hin]; [discriminate|].
  destruct (mkdir world (GLOBAL_CONFIG_DIR home)) as [message|[]];
    [simpl in Hin; tauto|].
  destruct Hin as [Hin|[]]. inversion Hin; subst. cbn.
  repeat split; auto.
Qed.

(** X7.  [checkForUpdate] never rejects: whatever fails on the way - the
    read of the cache, the request, the making of the directory, the
    write - the call resolves, with an [UpdateInfo] or with [null]. *)
Theorem checkForUpdate_never_rejects currentVersion packageName forceCheck :
  exists info,
    outcome (checkForUpdate J world home currentVersion packageName forceCheck)
    = inr info.
Proof.
  destruct (usable_or_not forceCheck)
    as [Hwhy|(Hforced & cache & Hread & Hfresh & Hne)].
  - rewrite (registry_decides _ _ _ Hwhy). eexists. reflexivity.
  - rewrite (cache_decides _ _ _ _ Hforced Hread Hfresh Hne).
    eexists. reflexivity.
Qed.

(** X8.  An [UpdateInfo] that [checkForUpdate] returns is sound: its
    [current] is the version passed in, its [latest] is not empty, is not
    the current version and is newer than it by [isNewer], and it is the
    version of a cache less than 24 hours old (on a check that was not
    forced) or the version the registry gave. *)
Theorem update_is_newer currentVersion packageName forceCheck info :
  outcome (checkForUpdate J world home currentVersion packageName forceCheck)
  = inr (Some info) ->
  current info = currentVersion /\
  latest info <> "" /\
  latest info <> currentVersion /\
  isNewer J (latest info) currentVersion = true /\
  ((forced forceCheck = false /\
    exists cache,
      readCache world (UPDATE_CHECK_FILE home) = inr cache /\
      (now world - lastCheck cache < CHECK_INTERVAL_MS)%Z /\
      latestVersion cache = latest info) \/
   fetchLatest world (registryUrl packageName) = inr (Some (latest info))).
Proof.
  assert (Hdistinct : forall version,
             isNewer J version currentVersion = true ->
             version <> currentVersion).
  { intros version Hnewer ->. unfold isNewer in Hnewer.
    rewrite newerFrom_irrefl in Hnewer. discriminate. }
  destruct (usable_or_not forceCheck)
    as [Hwhy|(Hforced & cache & Hread & Hfresh & Hne)].
  - rewrite (registry_decides _ _ _ Hwhy). unfold outcome. cbn [snd].
    destruct (fetchLatest world (registryUrl packageName))
      as [message|[[|c v]|]]; try discriminate.
    intros Hinfo. inversion Hinfo as [Hannounce].
    apply announce_inv in Hannounce as (Hcurrent & Hlatest & Hnewer).
    rewrite Hlatest. repeat split; auto; discriminate.
  - rewrite (cache_decides _ _ _ _ Hforced Hread Hfresh Hne).
    unfold outcome. cbn [snd].
    intros Hinfo. inversion Hinfo as [Hannounce].
    apply announce_inv in Hannounce as (Hcurrent & Hlatest & Hnewer).
    rewrite Hlatest. repeat split; auto. left. split; [exact Hforced|].
    exists cache. auto.
Qed.

(** X9.  A forced check does not look at the cache: its first action is
    the request to the registry, and the cache file is not read.  A check
    that is not forced ([forceCheck] omitted or [false]) starts by
    reading the cache file. *)
Theorem forced_check_skips_cache currentVersion packageName :
  (exists rest,
      trace (checkForUpdate J world home currentVersion packageName
               (Some true))
      = Fetch (registryUrl packageName) :: rest /\
      forall path, ~ In (ReadFile path) rest) /\
  (forall forceCheck,
      forced forceCheck = false ->
      exists rest,
        trace (checkForUpdate J world home currentVersion packageName
                 forceCheck)
        = ReadFile (UPDATE_CHECK_FILE home) :: rest).
Proof.
  split.
  - rewrite (registry_decides currentVersion packageName (Some true))
      by (left; reflexivity).
    unfold trace. cbn [fst forced app]. rewrite fromRegistry_trace.
    eexists. split; [reflexivity|].
    intros path Hin.
    destruct (fetchLatest world (registryUrl packageName))
      as [message|[[|c v]|]]; try (simpl in Hin; tauto).
    destruct (mkdir world (GLOBAL_CONFIG_DIR home)) as [message|[]];
      simpl in Hin; intuition discriminate.
  - intros forceCheck Hforced.
    destruct (usable_or_not forceCheck)
      as [Hwhy|(_ & cache & Hread & Hfresh & Hne)].
    + rewrite (registry_decides _ _ _ Hwhy), Hforced. eexists. reflexivity.
    + rewrite (cache_decides _ _ _ _ Hforced Hread Hfresh Hne).
      eexists. reflexivity.
Qed.

(** X10.  A cache that is less than 24 hours old and holds a version
    answers a check that is not forced: the cache file is read, nothing
    else is done - no request, no write - and the cached version is
    compared with the current one. *)
Theorem fresh_cache_answers currentVersion packageName forceCheck cache :
  forced forceCheck = false ->
  readCache world (UPDATE_CHECK_FILE home) = inr cache ->
  (now world - lastCheck cache < CHECK_INTERVAL_MS)%Z ->
  latestVersion cache <> "" ->
  checkForUpdate J world home currentVersion packageName forceCheck
  = ([ReadFile (UPDATE_CHECK_FILE home)],
     inr (if isNewer J (latestVersion cache) currentVersion
          then Some {| current := currentVersion;
                       latest := latestVersion cache |}
          else None)).
Proof. apply cache_decides. Qed.

(** X11.  A cache that cannot be read or parsed, that is 24 hours old or
    older, or that holds an empty version is not gone by: after reading
    it, a check that is not forced does what a forced check does, and
    answers what a forced check answers. *)
Theorem unusable_cache_refetches currentVersion packageName forceCheck :
  forced forceCheck = false ->
  unusable world home ->
  checkForUpdate J world home currentVersion packageName forceCheck
  = (ReadFile (UPDATE_CHECK_FILE home)
     :: trace (checkForUpdate J world home currentVersion packageName
                 (Some true)),
     outcome (checkForUpdate J world home currentVersion packageName
                (Some true))).
Proof.
  intros Hforced Hunusable.
  rewrite (registry_decides currentVersion packageName forceCheck)
    by now right.
  rewrite (registry_decides currentVersion packageName (Some true))
    by (left; reflexivity).
  rewrite Hforced. reflexivity.
Qed.

(** X12.  When the check has to ask the registry and the request fails
    (or is aborted after the timeout), or the answer has no version or an
    empty one, the answer is [null], and the cache is left as it is:
    no directory is made and nothing is written. *)
Theorem no_version_no_update currentVersion packageName forceCheck :
  forced forceCheck = true \/ unusable world home ->
  (exists message,
      fetchLatest world (registryUrl packageName) = inl message) \/
  fetchLatest world (registryUrl packageName) = inr None \/
  fetchLatest world (registryUrl packageName) = inr (Some "") ->
  checkForUpdate J world home currentVersion packageName forceCheck
  = ((if forced forceCheck then [] else [ReadFile (UPDATE_CHECK_FILE home)])
     ++ [Fetch (registryUrl packageName)],
     inr None).
Proof.
  intros Hwhy Hanswer. rewrite (registry_decides _ _ _ Hwhy).
  rewrite fromRegistry_trace.
  destruct Hanswer as [[message ->]|[-> | ->]]; reflexivity.
Qed.

(** X13.  The cache is written only with what the registry has just
    said: a write goes to [UPDATE_CHECK_FILE], holds the non-empty
    version that the request of this call returned and the time of the
    write, and is the last action of the call, right after the
    directory [GLOBAL_CONFIG_DIR], in which the file lies, has been
    made. *)
Theorem cache_write_records_fetch
    currentVersion packageName forceCheck path content :
  In (WriteFile path content)
     (trace (checkForUpdate J world home currentVersion packageName
               forceCheck)) ->
  path = UPDATE_CHECK_FILE home /\
  path = GLOBAL_CONFIG_DIR home +:+ "/.update-check" /\
  lastCheck content = nowAtWrite world /\
  latestVersion content <> "" /\
  fetchLatest world (registryUrl packageName)
  = inr (Some (latestVersion content)) /\
  mkdir world (GLOBAL_CONFIG_DIR home) = inr tt /\
  exists before,
    trace (checkForUpdate J world home currentVersion packageName forceCheck)
    = before ++ [Fetch (registryUrl packageName);
                 Mkdir (GLOBAL_CONFIG_DIR home); WriteFile path content] /\
    forall e, In e before -> e = ReadFile (UPDATE_CHECK_FILE home).
Proof.
  intros Hin.
  apply write_inv in Hin
    as (_ & Hpath & Htime & Hversion & Hfetch & Hmkdir & Htrace).
  split; [exact Hpath|]. split; [rewrite Hpath; reflexivity|].
  do 4 (split; [assumption|]).
  eexists. split; [exact Htrace|].
  intros e He. destruct (forced forceCheck); simpl in He; intuition.
Qed.

(** X14.  Each call reads the cache file at most once, asks the registry
    at most once, makes the directory at most once and writes the cache
    file at most once, in this order, and does nothing else: no other
    file, directory or address is touched. *)
Theorem checkForUpdate_effects currentVersion packageName forceCheck :
  exists content,
    sublist
      (trace (checkForUpdate J world home currentVersion packageName
                forceCheck))
      [ReadFile (UPDATE_CHECK_FILE home); Fetch (registryUrl packageName);
       Mkdir (GLOBAL_CONFIG_DIR home);
       WriteFile (UPDATE_CHECK_FILE home) content].
Proof.
  exists {| lastCheck := nowAtWrite world;
            latestVersion := match fetchLatest world (registryUrl packageName)
                             with
                             | inr (Some version) => version
                             | _ => ""
                             end |}.
  destruct (usable_or_not forceCheck)
    as [Hwhy|(Hforced & cache & Hread & Hfresh & Hne)].
  - rewrite (registry_decides _ _ _ Hwhy). unfold trace. cbn [fst].
    rewrite fromRegistry_trace.
    destruct (forced forceCheck);
      destruct (fetchLatest world (registryUrl packageName))
        as [message|[[|c v]|]];
      try destruct (mkdir world (GLOBAL_CONFIG_DIR home)) as [message'|[]];
      cbn [app];
      repeat first [apply sublist_nil | apply sublist_skip
                   | apply sublist_cons].
  - rewrite (cache_decides _ _ _ _ Hforced Hread Hfresh Hne).
    unfold trace. cbn [fst].
    repeat first [apply sublist_nil | apply sublist_skip | apply sublist_cons].
Qed.

End CheckForUpdate.

(** The conditions under which the cache is gone by are conditions on
    what is read and on the clock. *)
Lemma unusable_same (world world' : UpdateChecker.World) home :
  UpdateChecker.readCache world' = UpdateChecker.readCache world ->
  UpdateChecker.now world' = UpdateChecker.now world ->
  UpdateChecker.unusable world home -> UpdateChecker.unusable world' home.
Proof.
  intros Hread Hnow. unfold UpdateChecker.unusable.
  now rewrite Hread, Hnow.
Qed.

(** X15.  What happens to the cache does not change the answer: two
    machines that differ only in whether the directory can be made and
    the file written (and in the time of the write) get the same answer
    from [checkForUpdate]. *)
Theorem cache_failure_is_silent
    J (world world' : UpdateChecker.World) home currentVersion packageName
    forceCheck :
  UpdateChecker.readCache world' = UpdateChecker.readCache world ->
  UpdateChecker.now world' = UpdateChecker.now world ->
  UpdateChecker.fetchLatest world' = UpdateChecker.fetchLatest world ->
  outcome (UpdateChecker.checkForUpdate J world' home currentVersion
             packageName forceCheck)
  = outcome (UpdateChecker.checkForUpdate J world home currentVersion
               packageName forceCheck).
Proof.
  intros Hread Hnow Hfetch.
  destruct (usable_or_not world home forceCheck)
    as [Hwhy|(Hforced & cache & Hcache & Hfresh & Hne)].
  - assert (Hwhy' : UpdateChecker.forced forceCheck = true \/
                    UpdateChecker.unusable world' home).
    { destruct Hwhy as [?|Hwhy]; [now left | right].
      now apply (unusable_same world world'). }
    rewrite (registry_decides J world home _ _ _ Hwhy).
    rewrite (registry_decides J world' home _ _ _ Hwhy').
    unfold outcome. cbn [snd]. now rewrite Hfetch.
  - rewrite (cache_decides J world home _ _ _ _ Hforced Hcache Hfresh Hne).
    rewrite <- Hread in Hcache. rewrite <- Hnow in Hfresh.
    rewrite (cache_decides J world' home _ _ _ _ Hforced Hcache Hfresh Hne).
    reflexivity.
Qed.

(** X16.  The cache round trip: when a call has written the cache, a
    later call for the same current version that is not forced, reads
    what was written and starts less than 24 hours after the write gives
    the same answer as the first, with no request to the registry. *)
Theorem written_cache_is_reused
    J (world later : UpdateChecker.World) home currentVersion packageName
    forceCheck forceCheck' path content :
  In (UpdateChecker.WriteFile path content)
     (trace (UpdateChecker.checkForUpdate J world home currentVersion
               packageName forceCheck)) ->
  UpdateChecker.forced forceCheck' = false ->
  UpdateChecker.readCache later path = inr content ->
  (UpdateChecker.now later - UpdateChecker.nowAtWrite world
   < UpdateChecker.CHECK_INTERVAL_MS)%Z ->
  UpdateChecker.checkForUpdate J later home currentVersion packageName
    forceCheck'
  = ([UpdateChecker.ReadFile path],
     outcome (UpdateChecker.checkForUpdate J world home currentVersion
                packageName forceCheck)).
Proof.
  intros Hin Hforced Hread Hfresh.
  apply write_inv in Hin
    as (Hwhy & -> & Htime & Hversion & Hfetch & _ & _).
  rewrite <- Htime in Hfresh.
  rewrite (cache_decides J later home _ _ _ _ Hforced Hread Hfresh Hversion).
  rewrite (registry_decides J world home _ _ _ Hwhy).
  unfold outcome. cbn [snd]. rewrite Hfetch.
  destruct (UpdateChecker.latestVersion content); [congruence | reflexivity].
Qed.

(** No cache, the registry has ["1.3.0"], the installed version is
    ["1.2.0"]. *)
Lemma update_is_newer_witness :
  UpdateChecker.current (UpdateChecker.Build_UpdateInfo "1.2.0" "1.3.0")
  = "1.2.0" /\
  UpdateChecker.latest (UpdateChecker.Build_UpdateInfo "1.2.0" "1.3.0")
  <> "" /\
  UpdateChecker.latest (UpdateChecker.Build_UpdateInfo "1.2.0" "1.3.0")
  <> "1.2.0" /\
  UpdateChecker.isNewer UpdateChecker.decimal
    (UpdateChecker.latest (UpdateChecker.Build_UpdateInfo "1.2.0" "1.3.0"))
    "1.2.0" = true /\
  ((UpdateChecker.forced None = false /\
    exists cache,
      UpdateChecker.readCache
        (UpdateSample.world None 1000 (inr (Some "1.3.0")))
        (UPDATE_CHECK_FILE UpdateSample.home) = inr cache /\
      (UpdateChecker.now (UpdateSample.world None 1000 (inr (Some "1.3.0")))
       - UpdateChecker.lastCheck cache < UpdateChecker.CHECK_INTERVAL_MS)%Z /\
      UpdateChecker.latestVersion cache
      = UpdateChecker.latest (UpdateChecker.Build_UpdateInfo "1.2.0" "1.3.0")) \/
   UpdateChecker.fetchLatest
     (UpdateSample.world None 1000 (inr (Some "1.3.0")))
     (UpdateChecker.registryUrl "branchlet")
   = inr (Some (UpdateChecker.latest
                  (UpdateChecker.Build_UpdateInfo "1.2.0" "1.3.0")))).
Proof.
  apply (update_is_newer UpdateChecker.decimal
           (UpdateSample.world None 1000 (inr (Some "1.3.0")))
           UpdateSample.home "1.2.0" "branchlet" None
           (UpdateChecker.Build_UpdateInfo "1.2.0" "1.3.0")).
  vm_compute. reflexivity.
Defined.

(** A check with [forceCheck] [false] on a machine without a cache. *)
Lemma forced_check_skips_cache_witness :
  exists rest,
    trace (UpdateChecker.checkForUpdate UpdateChecker.decimal
             (UpdateSample.world None 1000 (inr (Some "1.3.0")))
             UpdateSample.home "1.2.0" "branchlet" (Some false))
    = UpdateChecker.ReadFile (UPDATE_CHECK_FILE UpdateSample.home) :: rest.
Proof.
  apply (proj2 (forced_check_skips_cache UpdateChecker.decimal
                  (UpdateSample.world None 1000 (inr (Some "1.3.0")))
                  UpdateSample.home "1.2.0" "branchlet") (Some false)).
  reflexivity.
Defined.

(** A cache written four seconds ago, and no network. *)
Lemma fresh_cache_answers_witness :
  UpdateChecker.checkForUpdate UpdateChecker.decimal
    (UpdateSample.world (Some (UpdateChecker.Build_CacheData 1000 "1.3.0"))
       5000 (inl "fetch failed"))
    UpdateSample.home "1.2.0" "branchlet" None
  = ([UpdateChecker.ReadFile (UPDATE_CHECK_FILE UpdateSample.home)],
     inr (if UpdateChecker.isNewer UpdateChecker.decimal
               (UpdateChecker.latestVersion
                  (UpdateChecker.Build_CacheData 1000 "1.3.0")) "1.2.0"
          then Some (UpdateChecker.Build_UpdateInfo "1.2.0"
                       (UpdateChecker.latestVersion
                          (UpdateChecker.Build_CacheData 1000 "1.3.0")))
          else None)).
Proof.
  apply (fresh_cache_answers UpdateChecker.decimal
           (UpdateSample.world
              (Some (UpdateChecker.Build_CacheData 1000 "1.3.0"))
              5000 (inl "fetch failed"))
           UpdateSample.home "1.2.0" "branchlet" None
           (UpdateChecker.Build_CacheData 1000 "1.3.0")).
  - reflexivity.
  - vm_compute. reflexivity.
  - vm_compute. reflexivity.
  - discriminate.
Defined.

(** A cache that is exactly 24 hours old: its ["9.9.9"] is not gone by,
    the registry is asked. *)
Lemma unusable_cache_refetches_witness :
  UpdateChecker.checkForUpdate UpdateChecker.decimal
    (UpdateSample.world (Some (UpdateChecker.Build_CacheData 0 "9.9.9"))
       86400000 (inr (Some "1.2.0")))
    UpdateSample.home "1.2.0" "branchlet" None
  = (UpdateChecker.ReadFile (UPDATE_CHECK_FILE UpdateSample.home)
     :: trace (UpdateChecker.checkForUpdate UpdateChecker.decimal
                 (UpdateSample.world
                    (Some (UpdateChecker.Build_CacheData 0 "9.9.9"))
                    86400000 (inr (Some "1.2.0")))
                 UpdateSample.home "1.2.0" "branchlet" (Some true)),
     outcome (UpdateChecker.checkForUpdate UpdateChecker.decimal
                (UpdateSample.world
                   (Some (UpdateChecker.Build_CacheData 0 "9.9.9"))
                   86400000 (inr (Some "1.2.0")))
                UpdateSample.home "1.2.0" "branchlet" (Some true))).
Proof.
  apply (unusable_cache_refetches UpdateChecker.decimal
           (UpdateSample.world (Some (UpdateChecker.Build_CacheData 0 "9.9.9"))
              86400000 (inr (Some "1.2.0")))
           UpdateSample.home "1.2.0" "branchlet" None).
  - reflexivity.
  - vm_compute. left. discriminate.
Defined.

(** A forced check without network. *)
Lemma no_version_no_update_witness :
  UpdateChecker.checkForUpdate UpdateChecker.decimal
    (UpdateSample.world None 1000 (inl "fetch failed"))
    UpdateSample.home "1.2.0" "branchlet" (Some true)
  = ((if UpdateChecker.forced (Some true) then []
      else [UpdateChecker.ReadFile (UPDATE_CHECK_FILE UpdateSample.home)])
     ++ [UpdateChecker.Fetch (UpdateChecker.registryUrl "branchlet")],
     inr None).
Proof.
  apply (no_version_no_update UpdateChecker.decimal
           (UpdateSample.world None 1000 (inl "fetch failed"))
           UpdateSample.home "1.2.0" "branchlet" (Some true)).
  - left. reflexivity.
  - left. exists "fetch failed". vm_compute. reflexivity.
Defined.

(** The first check on a machine: the registry's ["1.3.0"] is written,
    with the time of the write. *)
Lemma cache_write_records_fetch_witness :
  UpdateChecker.lastCheck (UpdateChecker.Build_CacheData 1150 "1.3.0")
  = UpdateChecker.nowAtWrite
      (UpdateSample.world None 1000 (inr (Some "1.3.0"))) /\
  UpdateChecker.fetchLatest
    (UpdateSample.world None 1000 (inr (Some "1.3.0")))
    (UpdateChecker.registryUrl "branchlet")
  = inr (Some (UpdateChecker.latestVersion
                 (UpdateChecker.Build_CacheData 1150 "1.3.0"))).
Proof.
  destruct (cache_write_records_fetch UpdateChecker.decimal
              (UpdateSample.world None 1000 (inr (Some "1.3.0")))
              UpdateSample.home "1.2.0" "branchlet" None
              "/home/dev/.branchlet/.update-check"
              (UpdateChecker.Build_CacheData 1150 "1.3.0"))
    as (_ & _ & Htime & _ & Hfetch & _).
  - vm_compute. tauto.
  - split; assumption.
Defined.

(** The same machine with and without a writable home directory. *)
Lemma cache_failure_is_silent_witness :
  outcome (UpdateChecker.checkForUpdate UpdateChecker.decimal
             (UpdateSample.readOnly
                (UpdateSample.world None 1000 (inr (Some "1.3.0"))))
             UpdateSample.home "1.2.0" "branchlet" None)
  = outcome (UpdateChecker.checkForUpdate UpdateChecker.decimal
               (UpdateSample.world None 1000 (inr (Some "1.3.0")))
               UpdateSample.home "1.2.0" "branchlet" None).
Proof.
  apply (cache_failure_is_silent UpdateChecker.decimal
           (UpdateSample.world None 1000 (inr (Some "1.3.0")))
           (UpdateSample.readOnly
              (UpdateSample.world None 1000 (inr (Some "1.3.0"))))
           UpdateSample.home "1.2.0" "branchlet" None); reflexivity.
Defined.

(** A first check that writes the cache, and a check an hour later,
    without network. *)
Lemma written_cache_is_reused_witness :
  UpdateChecker.checkForUpdate UpdateChecker.decimal
    (UpdateSample.world (Some (UpdateChecker.Build_CacheData 1150 "1.3.0"))
       3600000 (inl "fetch failed"))
    UpdateSample.home "1.2.0" "branchlet" None
  = ([UpdateChecker.ReadFile "/home/dev/.branchlet/.update-check"],
     outcome (UpdateChecker.checkForUpdate UpdateChecker.decimal
                (UpdateSample.world None 1000 (inr (Some "1.3.0")))
                UpdateSample.home "1.2.0" "branchlet" None)).
Proof.
  apply (written_cache_is_reused UpdateChecker.decimal
           (UpdateSample.world None 1000 (inr (Some "1.3.0")))
           (UpdateSample.world
              (Some (UpdateChecker.Build_CacheData 1150 "1.3.0"))
              3600000 (inl "fetch failed"))
           UpdateSample.home "1.2.0" "branchlet" None None
           "/home/dev/.branchlet/.update-check"
           (UpdateChecker.Build_CacheData 1150 "1.3.0")).
  - vm_compute. tauto.
  - reflexivity.
  - vm_compute. reflexivity.
  - vm_compute. reflexivity.
Defined.
